(** * dns-synchub: the DNS reconciler, the pollers and the legacy sync loop

    A shallow embedding of [src/cloudflare_companion.py] and
    [src/pollers/traefik.py].  Python objects with side effects (the
    CloudFlare client, the logger) are modelled by a state-and-exception
    monad whose runs return the outcome, the final state of the provider
    and the chronological trace of client calls and log records. *)

From Stdlib Require Import ZArith String Ascii List Bool Lia.
From stdpp Require Import base option list gmap strings.

Local Open Scope string_scope.
Local Open Scope list_scope.
Local Open Scope Z_scope.

(** ** Python string primitives *)

Module Py.

(** [sub in s] *)
Fixpoint str_in (sub s : string) : bool :=
  String.prefix sub s ||
  match s with
  | EmptyString => false
  | String _ s' => str_in sub s'
  end.

(** [s.find(sub)]: index of the first occurrence, [-1] when there is none *)
Fixpoint find (s sub : string) : Z :=
  if String.prefix sub s then 0
  else match s with
       | EmptyString => -1
       | String _ s' => let r := find s' sub in if r <? 0 then -1 else 1 + r
       end.

(** [range(n)] *)
Definition range (n : Z) : list Z := map Z.of_nat (seq 0 (Z.to_nat n)).

(** [a or b] on an optional value whose falsy inhabitants are given by [falsy] *)
Definition or_else {A} (falsy : A -> bool) (a : option A) (b : A) : option A :=
  match a with
  | Some x => if falsy x then Some b else Some x
  | None => Some b
  end.

(** The rest of [s] after the prefix [p], when [s] starts with [p]. *)
Fixpoint strip_prefix (p s : string) : option string :=
  match p, s with
  | EmptyString, _ => Some s
  | String a p', String b s' => if Ascii.eqb a b then strip_prefix p' s' else None
  | String _ _, EmptyString => None
  end.

(** The longest prefix of [s] made of characters that satisfy [keep], and
    what follows it. *)
Fixpoint span (keep : ascii -> bool) (s : string) : string * string :=
  match s with
  | EmptyString => (EmptyString, EmptyString)
  | String c s' =>
      if keep c
      then let (run, rest) := span keep s' in (String c run, rest)
      else (EmptyString, s)
  end.

Definition newline : ascii := Ascii.ascii_of_nat 10.
Definition backquote : ascii := Ascii.ascii_of_nat 96.

(** [re.match(r"traefik.*?\.rule", label)]: the label starts with
    [traefik] and [.rule] occurs later on the same line ([.] matches every
    character but a newline). *)
Definition re_match_traefik_rule (label : string) : bool :=
  match strip_prefix "traefik" label with
  | Some rest => str_in ".rule" (fst (span (fun c => negb (Ascii.eqb c newline)) rest))
  | None => false
  end.

(** A match of [Host\(`([^`]+)`\)] at the start of [s]: the captured
    group and the length of the match.  The group is the longest run free
    of backquotes; no shorter run is followed by a backquote. *)
Definition match_host_here (s : string) : option (string * nat) :=
  match strip_prefix "Host(`" s with
  | Some s1 =>
      let (run, rest) := span (fun c => negb (Ascii.eqb c backquote)) s1 in
      match run with
      | EmptyString => None
      | String _ _ =>
          if String.prefix "`)" rest
          then Some (run, (6 + String.length run + 2)%nat)
          else None
      end
  | None => None
  end.

(** [re.findall(r"Host\(`([^`]+)`\)", value)]: the captures of the
    non-overlapping matches, scanning from the left; [skip] characters
    belong to the match just found. *)
Fixpoint findall_host_from (skip : nat) (s : string) : list string :=
  match s with
  | EmptyString => []
  | String _ s' =>
      match skip with
      | S k => findall_host_from k s'
      | O =>
          match match_host_here s with
          | Some (capture, len) => capture :: findall_host_from (Nat.pred len) s'
          | None => findall_host_from O s'
          end
      end
  end.

Definition findall_host (value : string) : list string := findall_host_from O value.

(** A compiled pattern, seen through [pattern.match]. *)
Definition Pattern := string -> bool.


(** [re.compile(".*").match] *)
Definition re_any : Pattern := fun _ => true.

End Py.

(** ** Data model *)

(** [class DomainsModel(BaseModel)] *)
Module DomainsModel.
Record t := mk {
  name : string;
  zone_id : string;
  proxied : bool;
  ttl : option Z;
  target_domain : option string;
  comment : option string;
  excluded_sub_domains : list string
}.
End DomainsModel.

(** The fields of [class Settings] that the reconciler reads. *)
Module Settings.
Record t := mk {
  dry_run : bool;
  refresh_entries : bool;
  target_domain : string;
  default_ttl : Z;
  rc_type : string;
  domains : list DomainsModel.t
}.

(** [dom.ttl = dom.ttl or self.default_ttl;
     dom.target_domain = dom.target_domain or self.target_domain] *)
Definition update_domain (self : t) (dom : DomainsModel.t) : DomainsModel.t :=
  DomainsModel.mk
    (DomainsModel.name dom) (DomainsModel.zone_id dom) (DomainsModel.proxied dom)
    (Py.or_else (Z.eqb 0) (DomainsModel.ttl dom) (default_ttl self))
    (Py.or_else (String.eqb EmptyString) (DomainsModel.target_domain dom) (target_domain self))
    (DomainsModel.comment dom) (DomainsModel.excluded_sub_domains dom).

Definition update_domains (self : t) : t :=
  mk (dry_run self) (refresh_entries self) (target_domain self) (default_ttl self)
     (rc_type self) (map (update_domain self) (domains self)).
End Settings.

(** The payload dictionary built by [update_zones]. *)
Module RecordData.
Record t := mk {
  type : string;
  name : string;
  content : option string;
  ttl : Z;
  proxied : bool;
  comment : option string
}.
End RecordData.

(** A record as the provider lists it; the reconciler reads [record["id"]] only. *)
Record DnsRecord := { id : string }.

(** [CloudFlareExceptions.CloudFlareAPIError(code, message)]; [str(err)] is the message. *)
Record CloudFlareAPIError := { code : Z; message : string }.

Definition str (err : CloudFlareAPIError) : string := message err.

(** Exceptions that leave the modelled functions. *)
Inductive Exception :=
| APIError (err : CloudFlareAPIError)
| CloudFlareException (msg : string)
| TypeError (msg : string)
| AttributeError (msg : string).

(** A call returns a value or raises. *)
Inductive Outcome (A : Type) :=
| Ret (a : A)
| Raise (e : Exception).
Arguments Ret {A} a.
Arguments Raise {A} e.

(** ** Effects *)

Inductive Call :=
| GET (zone_id name : string)
| POST (zone_id : string) (data : RecordData.t)
| PUT (zone_id record_id : string) (data : RecordData.t).

Inductive Level := DEBUG | INFO | WARNING | ERROR.

(** Log records, one constructor per format string of the source. *)
Inductive Message :=
| MsgIgnoringExcluded (name sub_dom : string)
| MsgRetryIn (sleep_time : Z)
| MsgDryRunPost (zone_id : string) (data : RecordData.t)
| MsgCreated (zone_id : string) (data : RecordData.t)
| MsgDryRunPut (zone_id record_id : string) (data : RecordData.t)
| MsgUpdated (record_id zone_id : string) (data : RecordData.t)
| MsgProviderError (name : string) (ex : CloudFlareAPIError)
| MsgSkippingLabel (label : string) (container_id : option string)
| MsgSkippingMissingHost (container_id : option string)
| MsgDockerRoute (container_id : option string) (hosts : list string)
| MsgStartingDockerPoller
| MsgCalledDockerPoller
| MsgSkippingContainer (container_id : option string)
| MsgRouterMissingKey (route : gmap string string)
| MsgRouterNotEnabled (name : string)
| MsgRouterMissingHost (name : string)
| MsgRouterDomains (name : string) (hosts : list string)
| MsgHostNotIncluded (host : string)
| MsgHostExcluded (host : string)
| MsgFoundRouter (name host : string).

(** What a run leaves behind: calls of the provider client, log records,
    and the calls of [CloudFlareZones.point_domain] made by the sync loop. *)
Inductive Event :=
| Called (c : Call)
| Logged (lvl : Level) (m : Message)
| Dispatched (name : string) (result : Outcome bool).

Record Result (W A : Type) := mkResult {
  outcome : Outcome A;
  world : W;
  trace : list Event
}.
Arguments mkResult {W A} _ _ _.
Arguments outcome {W A} _.
Arguments world {W A} _.
Arguments trace {W A} _.

Definition M (W A : Type) : Type := W -> Result W A.

Definition ret {W A} (a : A) : M W A := fun w => mkResult (Ret a) w [].

Definition raise {W A} (e : Exception) : M W A := fun w => mkResult (Raise e) w [].

Definition bind {W A B} (m : M W A) (k : A -> M W B) : M W B :=
  fun w =>
    let r := m w in
    match outcome r with
    | Ret a => let r' := k a (world r) in
               mkResult (outcome r') (world r') (trace r ++ trace r')
    | Raise e => mkResult (Raise e) (world r) (trace r)
    end.

(** [try: body except CloudFlareAPIError as ex: handler ex] *)
Definition try_except {W A} (body : M W A) (handler : CloudFlareAPIError -> M W A) : M W A :=
  fun w =>
    let r := body w in
    match outcome r with
    | Raise (APIError ex) =>
        let r' := handler ex (world r) in
        mkResult (outcome r') (world r') (trace r ++ trace r')
    | _ => r
    end.

(** What evaluating [CloudFlare.exceptions] raises in a module that binds
    [CloudFlare] by [from CloudFlare import CloudFlare], the client class. *)
Definition no_attribute_exceptions : Exception :=
  AttributeError "type object 'CloudFlare' has no attribute 'exceptions'".

(** [try: body except CloudFlare.exceptions.CloudFlareAPIError as ex: handler ex]
    in such a module.  When [body] raises, the expression of the [except]
    clause is evaluated and raises [AttributeError], which replaces the
    exception of [body]; [handler] is never entered. *)
Definition try_except_unresolved {W A} (body : M W A) (handler : CloudFlareAPIError -> M W A)
  : M W A :=
  fun w =>
    let r := body w in
    match outcome r with
    | Raise _ => mkResult (Raise no_attribute_exceptions) (world r) (trace r)
    | Ret _ => r
    end.

Definition log {W} (lvl : Level) (m : Message) : M W unit :=
  fun w => mkResult (Ret tt) w [Logged lvl m].

Declare Scope py_scope.
Delimit Scope py_scope with py.
Notation "x <- m ;; k" := (bind m (fun x => k))
  (at level 100, m at next level, right associativity) : py_scope.
Notation "m ;;; k" := (bind m (fun _ => k))
  (at level 100, right associativity) : py_scope.

(** [for x in xs: body x] *)
Fixpoint for_each {W A} (xs : list A) (body : A -> M W unit) : M W unit :=
  match xs with
  | [] => ret tt
  | x :: xs' => bind (body x) (fun _ => for_each xs' body)
  end.

(** ** The provider client

    [client.zones.dns_records.{get,post,put}]: an external, stateful
    collaborator.  A call either returns or raises [CloudFlareAPIError], and
    moves the provider to a new state. *)
Class CloudFlareClient (W : Type) := {
  dns_records_get : string -> string -> W -> (CloudFlareAPIError + list DnsRecord) * W;
  dns_records_post : string -> RecordData.t -> W -> option CloudFlareAPIError * W;
  dns_records_put : string -> string -> RecordData.t -> W -> option CloudFlareAPIError * W
}.

(** The dictionary [data] that [update_zones] builds for a pair. *)
Definition payload (rc_type name : string) (domain_info : DomainsModel.t) (ttl : Z)
  : RecordData.t :=
  RecordData.mk rc_type name (DomainsModel.target_domain domain_info) ttl
    (DomainsModel.proxied domain_info) (DomainsModel.comment domain_info).

Section Reconciler.
Context {W : Type} `{CloudFlareClient W}.
Local Open Scope py_scope.

Definition client_get (zone_id name : string) : M W (list DnsRecord) :=
  fun w =>
    match dns_records_get zone_id name w with
    | (inr records, w') => mkResult (Ret records) w' [Called (GET zone_id name)]
    | (inl err, w') => mkResult (Raise (APIError err)) w' [Called (GET zone_id name)]
    end.

Definition client_post (zone_id : string) (data : RecordData.t) : M W unit :=
  fun w =>
    match dns_records_post zone_id data w with
    | (None, w') => mkResult (Ret tt) w' [Called (POST zone_id data)]
    | (Some err, w') => mkResult (Raise (APIError err)) w' [Called (POST zone_id data)]
    end.

Definition client_put (zone_id record_id : string) (data : RecordData.t) : M W unit :=
  fun w =>
    match dns_records_put zone_id record_id data w with
    | (None, w') => mkResult (Ret tt) w' [Called (PUT zone_id record_id data)]
    | (Some err, w') =>
        mkResult (Raise (APIError err)) w' [Called (PUT zone_id record_id data)]
    end.

(** [class CloudFlareZones]: the attributes set by [__init__] and the
    class-level [config["max_retries"]]. *)
Record CloudFlareZones := {
  max_retries : Z;
  dry_run : bool;
  rc_type : string;
  refresh_entries : bool
}.

Definition CloudFlareZones_init (settings : Settings.t) : CloudFlareZones :=
  {| max_retries := 5;
     dry_run := Settings.dry_run settings;
     rc_type := Settings.rc_type settings;
     refresh_entries := Settings.refresh_entries settings |}.

(** [def is_domain_excluded(logger, name, dom)] *)
Fixpoint is_domain_excluded_in (name dom_name : string) (subs : list string) : M W bool :=
  match subs with
  | [] => ret false
  | sub_dom :: rest =>
      if Py.str_in (sub_dom +:+ "." +:+ dom_name) name
      then log INFO (MsgIgnoringExcluded name sub_dom) ;;; ret true
      else is_domain_excluded_in name dom_name rest
  end.

Definition is_domain_excluded (name : string) (dom : DomainsModel.t) : M W bool :=
  is_domain_excluded_in name (DomainsModel.name dom) (DomainsModel.excluded_sub_domains dom).

(** [async def get_records(self, zone_id, name)].  The loop runs over
    [range(max_retries)]; the value [None] of the result type stands for
    Python's [None].  [asyncio.sleep(sleep_time)] is called without
    [await]: it builds a coroutine object that is dropped, so the call
    leaves no event. *)
Fixpoint get_records_loop (retries : list Z) (zone_id name : string)
  : M W (option (list DnsRecord)) :=
  match retries with
  | [] => raise (CloudFlareException "Max retries exceeded")
  | retry :: rest =>
      try_except
        (records <- client_get zone_id name ;; ret (Some records))
        (fun err =>
           if negb (Py.str_in "Rate limited" (str err)) then raise (APIError err)
           else
             let sleep_time := 2 ^ (retry + 1) in
             log WARNING (MsgRetryIn sleep_time) ;;;
             get_records_loop rest zone_id name)
  end.

Definition get_records (self : CloudFlareZones) (zone_id name : string)
  : M W (option (list DnsRecord)) :=
  get_records_loop (Py.range (max_retries self)) zone_id name.

(** [def post_record(self, zone_id, data)] *)
Definition post_record (self : CloudFlareZones) (zone_id : string) (data : RecordData.t)
  : M W unit :=
  if dry_run self
  then log INFO (MsgDryRunPost zone_id data)
  else client_post zone_id data ;;; log INFO (MsgCreated zone_id data).

(** [def put_record(self, zone_id, record_id, data)] *)
Definition put_record (self : CloudFlareZones) (zone_id record_id : string)
  (data : RecordData.t) : M W unit :=
  if dry_run self
  then log INFO (MsgDryRunPut zone_id record_id data)
  else client_put zone_id record_id data ;;; log INFO (MsgUpdated record_id zone_id data).

(** [int(domain_info.ttl)] *)
Definition int_ (v : option Z) : M W Z :=
  match v with
  | Some z => ret z
  | None =>
      raise (TypeError
        "int() argument must be a string, a bytes-like object or a real number, not 'NoneType'")
  end.

(** The body of the [for domain_info in domain_infos] loop of
    [update_zones]; [ok] is the loop-carried flag.  The statement run when
    [get_records] yields [None] is the parameter [on_none], so that the
    reachability of that branch can be stated; the source has
    [ok = False; continue] there (see [update_zone]).  The [except] clause
    of the writes names [CloudFlare.exceptions.CloudFlareAPIError], where
    [get_records] names [CloudFlareExceptions.CloudFlareAPIError]: see
    [try_except_unresolved]. *)
Definition update_zone_with (on_none : bool -> M W bool) (self : CloudFlareZones)
  (name : string) (domain_info : DomainsModel.t) (ok : bool) : M W bool :=
  if decide (Some name = DomainsModel.target_domain domain_info) then ret ok
  else if Py.find name (DomainsModel.name domain_info) <? 0 then ret ok
  else
    excluded <- is_domain_excluded name domain_info ;;
    if excluded : bool then ret ok
    else
      records <- get_records self (DomainsModel.zone_id domain_info) name ;;
      match records with
      | None => on_none ok
      | Some records =>
          ttl <- int_ (DomainsModel.ttl domain_info) ;;
          let data := payload (rc_type self) name domain_info ttl in
          try_except_unresolved
            ((if refresh_entries self && (0 <? Z.of_nat (length records))
              then for_each records
                     (fun record =>
                        put_record self (DomainsModel.zone_id domain_info) (id record) data)
              else post_record self (DomainsModel.zone_id domain_info) data) ;;;
             ret ok)
            (fun ex => log ERROR (MsgProviderError name ex) ;;; ret false)
      end.

Fixpoint update_zones_with (on_none : bool -> M W bool) (self : CloudFlareZones)
  (name : string) (domain_infos : list DomainsModel.t) (ok : bool) : M W bool :=
  match domain_infos with
  | [] => ret ok
  | domain_info :: rest =>
      ok' <- update_zone_with on_none self name domain_info ok ;;
      update_zones_with on_none self name rest ok'
  end.

Definition update_zone := update_zone_with (fun _ => ret false).

(** [async def update_zones(self, name, domain_infos)] *)
Definition update_zones (self : CloudFlareZones) (name : string)
  (domain_infos : list DomainsModel.t) : M W bool :=
  update_zones_with (fun _ => ret false) self name domain_infos true.

End Reconciler.


(** ** Container poller *)

(** [class DockerContainer]: [id] is [attrs.get("Id")], [labels] the
    dictionary [attrs["Config"]["Labels"]] in its iteration order. *)
Module DockerContainer.
Record t := mk {
  id : option string;
  labels : list (string * string)
}.
End DockerContainer.

Inductive PollerSource := MANUAL | DOCKER | TRAEFIK.

(** [class ZoneUpdateJob(TypedDict)] *)
Module ZoneUpdateJob.
Record t := mk {
  timestamp : Z;
  source : PollerSource;
  entries : list string
}.
End ZoneUpdateJob.

(** [class SyncManager]: the jobs that have reached a queue, oldest first,
    and the number of clock readings taken so far. *)
Module SyncManager.
Record t := mk {
  queue : list ZoneUpdateJob.t;
  clock_reads : nat
}.
End SyncManager.

(** What the loop of [DockerPoller.run] receives from [poll]: a list of
    containers, or the coroutine object of a [fetch] that has not been
    awaited. *)
Inductive Polled :=
| Listing (containers : list DockerContainer.t)
| Coroutine (containers : list DockerContainer.t).

(** [for container in containers]: the iterator of [containers] *)
Definition iter {W} (containers : Polled) : M W (list DockerContainer.t) :=
  match containers with
  | Listing containers => ret containers
  | Coroutine _ => raise (TypeError "'coroutine' object is not iterable")
  end.

Section DockerPoller.
(** [time.monotonic_ns()], as a function of the number of earlier readings *)
Variable monotonic_ns : nat -> Z.
(** [self.filter_label], [self.filter_value] *)
Variables filter_label filter_value : Py.Pattern.
Local Open Scope py_scope.

(** [DockerContainer.hosts] *)
Fixpoint hosts_of_labels {W} (container_id : option string) (labels : list (string * string))
  : M W (list string) :=
  match labels with
  | [] => ret []
  | (label, value) :: rest =>
      if Py.re_match_traefik_rule label
      then log DEBUG (MsgSkippingLabel label container_id) ;;;
           hosts_of_labels container_id rest
      else if negb (Py.str_in "Host" value)
      then log DEBUG (MsgSkippingMissingHost container_id) ;;;
           hosts_of_labels container_id rest
      else
        let hosts := Py.findall_host value in
        log DEBUG (MsgDockerRoute container_id hosts) ;;;
        ret hosts
  end.

Definition hosts {W} (self : DockerContainer.t) : M W (list string) :=
  hosts_of_labels (DockerContainer.id self) (DockerContainer.labels self).

(** [DockerPoller.is_enabled] *)
Definition is_enabled (container : DockerContainer.t) : bool :=
  existsb (fun '(label, value) => filter_label label && filter_value value)
    (DockerContainer.labels container).

(** [await SyncManager().put(entries, source)].  [Singleton.__call__] runs
    [super().__call__(cls, *args, **kwargs)], so [SyncManager.__init__]
    receives the class as [queue] and keeps it: [self.queue] is the class
    [SyncManager].  [put] builds the job, reading the clock, and calls
    [self.queue.put(job)], the plain function [SyncManager.put] with the job
    as its only argument: the call raises [TypeError] and the job reaches no
    queue. *)
Definition put (entries : list string) (source : PollerSource) : M SyncManager.t unit :=
  fun w =>
    let job := ZoneUpdateJob.mk (monotonic_ns (SyncManager.clock_reads w)) source entries in
    mkResult
      (Raise (TypeError
         "SyncManager.put() missing 2 required positional arguments: 'entries' and 'source'"))
      (SyncManager.mk (SyncManager.queue w) (S (SyncManager.clock_reads w))) [].

(** The body of [for container in containers] in [DockerPoller.run] *)
Definition run_container (container : DockerContainer.t) : M SyncManager.t unit :=
  (if negb (is_enabled container)
   then log DEBUG (MsgSkippingContainer (DockerContainer.id container))
   else ret tt) ;;;
  container_hosts <- hosts container ;;
  for_each container_hosts (fun host => put [host] DOCKER).

(** [DockerPoller.poll]: [yield self.fetch()] for every tick.  [fetch] is
    an [async def] and the call is not awaited, so what is yielded is the
    coroutine object, not the listing it would compute. *)
Definition poll (listings : list (list DockerContainer.t)) : list Polled :=
  map Coroutine listings.

(** [DockerPoller.run], driven by the container listings that the runtime
    holds at successive ticks. *)
Definition run (listings : list (list DockerContainer.t)) : M SyncManager.t unit :=
  log INFO MsgStartingDockerPoller ;;;
  for_each (poll listings)
    (fun containers =>
       log DEBUG MsgCalledDockerPoller ;;;
       containers <- iter containers ;;
       for_each containers run_container).

End DockerPoller.


(** ** Proxy-router poller *)

Section TraefikPoller.
Context {W : Type}.
(** [self.included_hosts], [self.excluded_hosts] *)
Variables included_hosts excluded_hosts : list Py.Pattern.
Local Open Scope py_scope.

(** A router as decoded from the JSON answer, restricted to its
    string-valued members. *)
Definition Route := gmap string string.

Definition getitem (route : Route) (key : string) : string := default EmptyString (route !! key).

(** [TraefikPoller._is_valid_route], the same text in
    [cloudflare_companion.py] and in [pollers/traefik.py] *)
Definition _is_valid_route (route : Route) : M W bool :=
  let required_keys := ["status"; "name"; "rule"] in
  if existsb (fun key => negb (bool_decide (is_Some (route !! key)))) required_keys
  then log DEBUG (MsgRouterMissingKey route) ;;; ret false
  else if negb (String.eqb (getitem route "status") "enabled")
  then log DEBUG (MsgRouterNotEnabled (getitem route "name")) ;;; ret false
  else
    (if negb (Py.str_in "Host" (getitem route "rule"))
     then log DEBUG (MsgRouterMissingHost (getitem route "name"))
     else ret tt) ;;;
    ret true.

(** [TraefikPoller._is_valid_host] *)
Definition _is_valid_host (host : string) : M W bool :=
  if negb (existsb (fun pattern : Py.Pattern => pattern host) included_hosts)
  then log DEBUG (MsgHostNotIncluded host) ;;; ret false
  else if existsb (fun pattern : Py.Pattern => pattern host) excluded_hosts
  then log DEBUG (MsgHostExcluded host) ;;; ret false
  else ret true.

Fixpoint validate_hosts (route_name : string) (route_hosts : list string)
  (data : list string) : M W (list string) :=
  match route_hosts with
  | [] => ret data
  | host :: rest =>
      valid <- _is_valid_host host ;;
      if valid : bool
      then log INFO (MsgFoundRouter route_name host) ;;;
           validate_hosts route_name rest (data ++ [host])
      else validate_hosts route_name rest data
  end.

Fixpoint validate_routes (raw_data : list Route) (data : list string)
  : M W (list string) :=
  match raw_data with
  | [] => ret data
  | route :: rest =>
      valid <- _is_valid_route route ;;
      if valid : bool
      then
        let route_hosts := Py.findall_host (getitem route "rule") in
        log DEBUG (MsgRouterDomains (getitem route "name") route_hosts) ;;;
        data' <- validate_hosts (getitem route "name") route_hosts data ;;
        validate_routes rest data'
      else validate_routes rest data
  end.

(** [TraefikPoller._validate] *)
Definition _validate (raw_data : list Route) : M W (list string * PollerSource) :=
  data <- validate_routes raw_data [] ;;
  ret (data, TRAEFIK).

(** The test of the deprecated [TraefikLegacyPoller.check_traefik] on a
    router: [True] when the router is kept. *)
Definition check_traefik_keeps (router : Route) : bool :=
  negb (existsb (fun key => negb (bool_decide (is_Some (router !! key))))
          ["status"; "name"; "rule"])
  && negb (negb (String.eqb (getitem router "status") "enabled")
           || negb (Py.str_in "Host" (getitem router "rule"))).

End TraefikPoller.

(** ** The deprecated sync loop *)

(** The module-level dictionary [synced_mappings] together with whatever the
    reconciler acts on. *)
Module SyncWorld.
Record t (E : Type) := mk {
  synced_mappings : gmap string Z;
  provider : E
}.
Arguments mk {E} _ _.
Arguments synced_mappings {E} _.
Arguments provider {E} _.
End SyncWorld.

Abbreviation synced := SyncWorld.synced_mappings.

Section SyncMappings.
Context {E : Type}.
(** [CloudFlareZones.point_domain(settings, k, domain_infos, logger)],
    acting on [E]: it returns a truth value or raises. *)
Variable point_domain : string -> E -> Outcome bool * E.
Local Open Scope py_scope.

Definition call_point_domain (k : string) : M (SyncWorld.t E) bool :=
  fun w =>
    let (result, e) := point_domain k (SyncWorld.provider w) in
    mkResult result (SyncWorld.mk (SyncWorld.synced_mappings w) e) [Dispatched k result].

Definition setitem (k : string) (v : Z) : M (SyncWorld.t E) unit :=
  fun w =>
    mkResult (Ret tt)
      (SyncWorld.mk (<[k := v]> (SyncWorld.synced_mappings w)) (SyncWorld.provider w)) [].

(** [current_mapping is None or current_mapping > v] *)
Definition needs_sync (current_mapping : option Z) (v : Z) : bool :=
  match current_mapping with
  | None => true
  | Some current => current >? v
  end.

(** The body of [for k, v in mappings.items()] in [sync_mappings] *)
Definition sync_mapping (k : string) (v : Z) : M (SyncWorld.t E) unit :=
  fun w =>
    let current_mapping := SyncWorld.synced_mappings w !! k in
    (if needs_sync current_mapping v
     then ok <- call_point_domain k ;;
          if ok : bool then setitem k v else ret tt
     else ret tt) w.

(** [def sync_mappings(settings, mappings, domain_infos, logger)];
    [mappings] lists the items of the dictionary in iteration order. *)
Definition sync_mappings (mappings : list (string * Z)) : M (SyncWorld.t E) unit :=
  for_each mappings (fun '(k, v) => sync_mapping k v).

End SyncMappings.

(** [CloudFlareZones(settings, logger)].  The metaclass [Singleton] runs
    [super().__call__(cls, *args, **kwargs)] until an instance is stored:
    [__init__] receives the class before [settings] and [logger], one
    positional argument more than it takes, and raises [TypeError]; no
    instance is ever stored, so every call ends this way. *)
Definition CloudFlareZones_call (settings : Settings.t) : Outcome CloudFlareZones :=
  Raise (TypeError "CloudFlareZones.__init__() takes 3 positional arguments but 4 were given").

(** [CloudFlareZones.point_domain]: build the reconciler from the settings
    and run [update_zones] on it; the provider and the trace so far make up
    the environment of the sync loop. *)
Definition point_domain {W} `{CloudFlareClient W} (settings : Settings.t)
  (domain_infos : list DomainsModel.t) (name : string) (e : W * list Event)
  : Outcome bool * (W * list Event) :=
  match CloudFlareZones_call settings with
  | Ret client =>
      let r := update_zones client name domain_infos (fst e) in
      (outcome r, (world r, snd e ++ trace r))
  | Raise ex => (Raise ex, e)
  end.

(** ** Reading traces *)

Definition calls (t : list Event) : list Call :=
  flat_map (fun e => match e with Called c => [c] | _ => [] end) t.

Definition is_get (c : Call) : bool := match c with GET _ _ => true | _ => false end.
Definition is_post (c : Call) : bool := match c with POST _ _ => true | _ => false end.
Definition is_put (c : Call) : bool := match c with PUT _ _ _ => true | _ => false end.

Definition gets (t : list Event) : list Call := List.filter is_get (calls t).
Definition posts (t : list Event) : list Call := List.filter is_post (calls t).
Definition puts (t : list Event) : list Call := List.filter is_put (calls t).

Definition writes (t : list Event) : list Call :=
  List.filter (fun c => negb (is_get c)) (calls t).

Definition errors_logged (t : list Event) : list Event :=
  List.filter (fun e => match e with Logged ERROR _ => true | _ => false end) t.

(** [is_domain_excluded] without its log record. *)
Definition excluded_by (name dom_name : string) (subs : list string) : bool :=
  existsb (fun sub_dom => Py.str_in (sub_dom +:+ "." +:+ dom_name) name) subs.

(** The tests of [update_zones] that come before the read: the hostname is
    not the target, contains the zone name, and falls under no excluded
    sub-domain. *)
Definition passes_filter (name : string) (domain_info : DomainsModel.t) : bool :=
  negb (bool_decide (Some name = DomainsModel.target_domain domain_info))
  && negb (Py.find name (DomainsModel.name domain_info) <? 0)
  && negb (excluded_by name (DomainsModel.name domain_info)
             (DomainsModel.excluded_sub_domains domain_info)).

(** The PUT that [update_zones] makes for an existing record. *)
Definition put_call (zone_id : string) (data : RecordData.t) (record : DnsRecord) : Call :=
  PUT zone_id (id record) data.

(** The position of the first record whose PUT the provider rejects, when
    the records are updated in order from the state [w]. *)
Fixpoint first_rejected_put {W} `{CloudFlareClient W} (zone_id : string)
  (data : RecordData.t) (records : list DnsRecord) (w : W) : option nat :=
  match records with
  | [] => None
  | record :: rest =>
      match dns_records_put zone_id (id record) data w with
      | (Some _, _) => Some O
      | (None, w') => option_map S (first_rejected_put zone_id data rest w')
      end
  end.

(** The provider answers the next [k] reads with rate-limit errors and is
    then in the state returned. *)
Fixpoint rate_limited_reads {W} `{CloudFlareClient W} (k : nat) (zone_id name : string)
  (w : W) : option W :=
  match k with
  | O => Some w
  | S k' =>
      match dns_records_get zone_id name w with
      | (inl err, w') =>
          if Py.str_in "Rate limited" (str err)
          then rate_limited_reads k' zone_id name w'
          else None
      | (inr _, _) => None
      end
  end.

(** A rate-limited read and the warning that announces the next one. *)
Definition backoff_events (zone_id name : string) (retry : Z) : list Event :=
  [Called (GET zone_id name); Logged WARNING (MsgRetryIn (2 ^ (retry + 1)))].

(** The trace of [k] rate-limited reads, for [retry = 0 .. k-1]. *)
Definition backoff_trace (zone_id name : string) (k : nat) : list Event :=
  flat_map (backoff_events zone_id name) (Py.range (Z.of_nat k)).

(** Every reconciliation of a trace of the sync loop returned [True]. *)
Definition all_succeeded (t : list Event) : Prop :=
  Forall (fun e => exists k, e = Dispatched k (Ret true)) t.

(** The hostnames of a container as the specification words them: the
    [Host] captures of every label whose key matches the router-rule
    pattern; a value without [Host] contributes nothing. *)
Definition hosts_spec (labels : list (string * string)) : list string :=
  flat_map
    (fun '(label, value) =>
       if Py.re_match_traefik_rule label && Py.str_in "Host" value
       then Py.findall_host value
       else [])
    labels.

(** A valid router as the specification words it: the three keys are
    present, [status] is [enabled] and [Host] occurs in [rule]. *)
Definition is_valid_route_spec (route : Route) : bool :=
  bool_decide (is_Some (route !! "status"))
  && bool_decide (is_Some (route !! "name"))
  && bool_decide (is_Some (route !! "rule"))
  && String.eqb (getitem route "status") "enabled"
  && Py.str_in "Host" (getitem route "rule").

(** ** A scripted client, in the manner of the [MagicMock] of the test suite *)

Module Mock.
Record t := mk {
  get_side_effect : list (CloudFlareAPIError + list DnsRecord);
  get_return_value : list DnsRecord;
  post_side_effect : list (option CloudFlareAPIError);
  put_side_effect : list (option CloudFlareAPIError)
}.

Definition get (_ _ : string) (w : t) : (CloudFlareAPIError + list DnsRecord) * t :=
  match get_side_effect w with
  | [] => (inr (get_return_value w), w)
  | r :: rest => (r, mk rest (get_return_value w) (post_side_effect w) (put_side_effect w))
  end.

Definition post (_ : string) (_ : RecordData.t) (w : t) : option CloudFlareAPIError * t :=
  match post_side_effect w with
  | [] => (None, w)
  | r :: rest => (r, mk (get_side_effect w) (get_return_value w) rest (put_side_effect w))
  end.

Definition put (_ _ : string) (_ : RecordData.t) (w : t) : option CloudFlareAPIError * t :=
  match put_side_effect w with
  | [] => (None, w)
  | r :: rest => (r, mk (get_side_effect w) (get_return_value w) (post_side_effect w) rest)
  end.

#[export] Instance client : CloudFlareClient t :=
  {| dns_records_get := get; dns_records_post := post; dns_records_put := put |}.

Definition returning (records : list DnsRecord) : t := mk [] records [] [].
End Mock.
Import Mock.

(** The fixtures of [tests/test_cloudflare.py]. *)
Definition mock_domain_info : DomainsModel.t :=
  DomainsModel.mk "example.com" "zone_id" false (Some 1) (Some "target.example.com")
    (Some "Test comment") [].

Definition mock_zones (refresh dry : bool) : CloudFlareZones :=
  {| max_retries := 5; dry_run := dry; rc_type := "CNAME"; refresh_entries := refresh |}.

Definition rate_limited : CloudFlareAPIError := {| code := -1; message := "Rate limited" |}.

Definition two_records : list DnsRecord := [{| id := "R1" |}; {| id := "R2" |}].

Definition internal_error : CloudFlareAPIError :=
  {| code := 1000; message := "Internal error" |}.

Definition mock_payload (name : string) : RecordData.t :=
  payload "CNAME" name mock_domain_info 1.

Definition second_domain_info : DomainsModel.t :=
  DomainsModel.mk "example.com" "zone_2" true (Some 1) (Some "other.example.com") None [].

Definition five_rate_limits_then_success : Mock.t :=
  Mock.mk [inl rate_limited; inl rate_limited; inl rate_limited; inl rate_limited;
           inl rate_limited; inr []] [] [] [].

Definition mock_settings : Settings.t :=
  Settings.mk false false "target.example.com" 1 "CNAME" [].

(** A container that carries one router rule, as Traefik reads it. *)
Definition web_container : DockerContainer.t :=
  DockerContainer.mk (Some "c1")
    [("traefik.http.routers.web.rule", "Host(`a.example.com`)")].


(** An enabled router whose rule has no [Host] matcher. *)
Definition path_route : Route :=
  <["status" := "enabled"]> (<["name" := "api"]> (<["rule" := "PathPrefix(`/api`)"]> ∅)).

(** ** Definitions used by the further properties *)

(** A write of the payload [data] to the zone [zone_id]. *)
Definition write_of (zone_id : string) (data : RecordData.t) (c : Call) : Prop :=
  c = POST zone_id data \/ exists record_id, c = PUT zone_id record_id data.

(** A client call that [update_zones self name domain_infos] may make: a
    read of [name] in a zone of the list that accepts [name], or a write of
    that zone's payload to it. *)
Definition call_allowed (rc_type name : string) (domain_infos : list DomainsModel.t)
  (c : Call) : Prop :=
  exists domain_info,
    In domain_info domain_infos
    /\ passes_filter name domain_info = true
    /\ (c = GET (DomainsModel.zone_id domain_info) name
        \/ exists ttl,
            DomainsModel.ttl domain_info = Some ttl
            /\ write_of (DomainsModel.zone_id domain_info)
                 (payload rc_type name domain_info ttl) c).

(** The exceptions that [update_zones] lets through. *)
Definition escapes_update_zones (e : Exception) : Prop :=
  match e with
  | APIError err => Py.str_in "Rate limited" (str err) = false
  | CloudFlareException msg => msg = "Max retries exceeded"
  | TypeError msg =>
      msg = "int() argument must be a string, a bytes-like object or a real number, not 'NoneType'"
  | AttributeError msg => msg = "type object 'CloudFlare' has no attribute 'exceptions'"
  end.

(** What the write phase of a pair leaves in the trace, dry run or not. *)
Definition quiet_writes (zone_id : string) (data : RecordData.t) (t : list Event) : Prop :=
  Forall (write_of zone_id data) (calls t)
  /\ List.filter is_get (calls t) = []
  /\ errors_logged t = [].

(** [Host(`h`)], the text that the pattern of [findall_host] matches. *)
Definition host_matcher (h : string) : string := "Host(`" +:+ h +:+ "`)".

(** [c not in s] for a character [c] *)
Definition lacks (c : ascii) (s : string) : Prop :=
  Py.str_in (String c EmptyString) s = false.

(** The test of [_is_valid_host], without its log records. *)
Definition host_allowed (included_hosts excluded_hosts : list Py.Pattern) (host : string)
  : bool :=
  existsb (fun pattern : Py.Pattern => pattern host) included_hosts
  && negb (existsb (fun pattern : Py.Pattern => pattern host) excluded_hosts).

(** The hostnames that [_validate] keeps from one router. *)
Definition route_hosts (included_hosts excluded_hosts : list Py.Pattern) (route : Route)
  : list string :=
  if bool_decide (is_Some (route !! "status"))
     && bool_decide (is_Some (route !! "name"))
     && bool_decide (is_Some (route !! "rule"))
     && String.eqb (getitem route "status") "enabled"
  then List.filter (host_allowed included_hosts excluded_hosts)
         (Py.findall_host (getitem route "rule"))
  else [].

(** [Settings.update_traefik_domains], on the field it rewrites:
    [if len(self.traefik_included_hosts) == 0:
       self.traefik_included_hosts.append(re.compile(".*"))] *)
Definition update_traefik_domains (traefik_included_hosts : list Py.Pattern)
  : list Py.Pattern :=
  if (length traefik_included_hosts =? 0)%nat
  then traefik_included_hosts ++ [Py.re_any]
  else traefik_included_hosts.

(** The body of [for k, v in mappings.items()] in [add_to_mappings] *)
Definition add_to_mapping (current_mappings : gmap string Z) (item : string * Z)
  : gmap string Z :=
  let current_mapping := current_mappings !! item.1 in
  if needs_sync current_mapping item.2
  then <[item.1 := item.2]> current_mappings
  else current_mappings.

(** [def add_to_mappings(current_mappings, mappings)]; the result is the
    dictionary [current_mappings] after the call. *)
Definition add_to_mappings (current_mappings : gmap string Z) (mappings : list (string * Z))
  : gmap string Z :=
  foldl add_to_mapping current_mappings mappings.

(** The label that [DockerContainer.hosts] stops at. *)
Definition hosts_label (item : string * string) : bool :=
  negb (Py.re_match_traefik_rule item.1) && Py.str_in "Host" item.2.

(** ** The publish/subscribe part of [class Poller]

    [_subscribers] is a dictionary from callbacks to [asyncio.Queue()]
    objects, which are unbounded: it is modelled by the list of its items in
    insertion order, a queue by the list of its pending data, oldest first.
    Callbacks are compared by identity and are taken not to call back into
    the poller; what [emit] hands to them is returned as a list of
    deliveries. *)
Module Poller.
Section WithCallbacks.
Context {Callback Data : Type} `{EqDecision Callback}.

Definition Subscribers : Type := list (Callback * list Data).

(** [callback in self._subscribers] *)
Definition subscribed (callback : Callback) (subscribers : Subscribers) : bool :=
  existsb (fun item => bool_decide (item.1 = callback)) subscribers.

(** [self._subscribers.setdefault(callback, asyncio.Queue())] *)
Definition setdefault (callback : Callback) (subscribers : Subscribers) : Subscribers :=
  if subscribed callback subscribers then subscribers else subscribers ++ [(callback, [])].

(** [def set_data(self, data)] *)
Definition set_data (data : Data) (subscribers : Subscribers) : Subscribers :=
  map (fun item => (item.1, item.2 ++ [data])) subscribers.

(** [async def subscribe(self, callback)]; [fetch] acts on a state [F], and
    a dictionary is true when it is not empty:
    [self._subscribers or self.set_data(await self.fetch())] *)
Definition subscribe {F} (fetch : F -> Data * F) (callback : Callback)
  (subscribers : Subscribers) (f : F) : Subscribers * F :=
  let subscribers' := setdefault callback subscribers in
  match subscribers' with
  | _ :: _ => (subscribers', f)
  | [] => let (data, f') := fetch f in (set_data data subscribers', f')
  end.

(** [def unsubscribe(self, callback)]: [self._subscribers.pop(callback, None)] *)
Definition unsubscribe (callback : Callback) (subscribers : Subscribers) : Subscribers :=
  List.filter (fun item => negb (bool_decide (item.1 = callback))) subscribers.

(** [while not queue.empty(): data = await queue.get(); callback(data)] *)
Fixpoint drain (callback : Callback) (queue : list Data) : list (Callback * Data) :=
  match queue with
  | [] => []
  | data :: queue' => (callback, data) :: drain callback queue'
  end.

(** [async def emit(self)]: the deliveries made, and the dictionary left *)
Fixpoint emit (subscribers : Subscribers) : list (Callback * Data) * Subscribers :=
  match subscribers with
  | [] => ([], [])
  | (callback, queue) :: rest =>
      let (deliveries, rest') := emit rest in
      (drain callback queue ++ deliveries, (callback, []) :: rest')
  end.

(** [def has_data(self, callback)] *)
Definition has_data (callback : Callback) (subscribers : Subscribers) : bool :=
  match List.find (fun item => bool_decide (item.1 = callback)) subscribers with
  | Some (_, queue) => negb (Nat.eqb (length queue) 0)
  | None => false
  end.

End WithCallbacks.
End Poller.

(** ** [initialize_logger]

    The logger that [initialize_logger] configures: the level set and the
    handlers added, each with the format string of its formatter. *)
Inductive LogStream := Stdout | LogFile (path : string).

Record LogHandler := { stream : LogStream; fmt : string; datefmt : string }.

Record LoggerState := {
  level : option Level;
  handlers : list LogHandler;
  error_records : list (string * string)
}.

(** How a run of [initialize_logger] ends: with the logger, or with the
    [UnboundLocalError] of a local variable read before any assignment. *)
Inductive LoggerInit :=
| Initialized (logger : LoggerState)
| UnboundLocalError (variable : string).

(** [def initialize_logger(settings)], after [log_level] and [log_type] have
    been upper-cased.  [file_error] is the [OSError] (file name and message)
    that [logging.FileHandler(log_file)] raises, if it does. *)
Definition initialize_logger (log_level log_type log_file : string)
  (file_error : option (string * string)) : LoggerInit :=
  let s0 : option Level * option string := (None, None) in
  let s1 := if String.eqb log_level "DEBUG"
            then (Some DEBUG, Some "%(asctime)s %(levelname)s %(lineno)d | %(message)s")
            else s0 in
  let s2 := if String.eqb log_level "VERBOSE"
            then (Some DEBUG, Some "%(asctime)s %(levelname)s | %(message)s")
            else s1 in
  let s3 := if String.eqb log_level "NOTICE" || String.eqb log_level "INFO"
            then (Some INFO, Some "%(asctime)s %(levelname)s | %(message)s")
            else s2 in
  let console :=
    if String.eqb log_type "CONSOLE" || String.eqb log_type "BOTH"
    then match s3.2 with
         | Some f => inl (Some f, [{| stream := Stdout; fmt := f;
                                      datefmt := "%Y-%m-%dT%H:%M:%S%z" |}])
         | None => inr "fmt"
         end
    else inl (None, []) in
  match console with
  | inr variable => UnboundLocalError variable
  | inl (formatter, handlers1) =>
      if String.eqb log_type "FILE" || String.eqb log_type "BOTH"
      then match file_error with
           | Some e =>
               Initialized {| level := s3.1; handlers := handlers1; error_records := [e] |}
           | None =>
               match formatter with
               | Some f =>
                   Initialized
                     {| level := s3.1;
                        handlers := handlers1
                                    ++ [{| stream := LogFile log_file; fmt := f;
                                           datefmt := "%Y-%m-%dT%H:%M:%S%z" |}];
                        error_records := [] |}
               | None => UnboundLocalError "formatter"
               end
           end
      else Initialized {| level := s3.1; handlers := handlers1; error_records := [] |}
  end.

Definition known_level (log_level : string) : bool :=
  String.eqb log_level "DEBUG" || String.eqb log_level "VERBOSE"
  || String.eqb log_level "NOTICE" || String.eqb log_level "INFO".

(** The zone of the test suite with the excluded sub-domain [sub]. *)
Definition excluded_domain_info : DomainsModel.t :=
  DomainsModel.mk "example.com" "zone_id" false (Some 1) (Some "target.example.com")
    (Some "Test comment") ["sub"].

(** ** The deprecated [TraefikLegacyPoller.check_traefik]

    [is_matching(host, patterns)] *)
Definition is_matching (host : string) (patterns : list Py.Pattern) : bool :=
  existsb (fun pattern : Py.Pattern => pattern host) patterns.

(** The body of [for v in extracted_domains]: [mappings[v] = 2] for a host
    that matches an include pattern and no exclude pattern.  The debug and
    info records of the loop are left out. *)
Definition check_traefik_host (included_hosts excluded_hosts : list Py.Pattern)
  (mappings : gmap string Z) (v : string) : gmap string Z :=
  if negb (is_matching v included_hosts) then mappings
  else if is_matching v excluded_hosts then mappings
  else <[v := 2]> mappings.

(** The body of [for router in response.json()] *)
Definition check_traefik_router (included_hosts excluded_hosts : list Py.Pattern)
  (mappings : gmap string Z) (router : Route) : gmap string Z :=
  if check_traefik_keeps router
  then foldl (check_traefik_host included_hosts excluded_hosts) mappings
         (Py.findall_host (getitem router "rule"))
  else mappings.

(** [def check_traefik(self)], given the decoded answer of the router API,
    or [None] when the request gave no usable answer
    ([response is not None and response.ok] is false). *)
Definition check_traefik (included_hosts excluded_hosts : list Py.Pattern)
  (response : option (list Route)) : gmap string Z :=
  match response with
  | Some routers => foldl (check_traefik_router included_hosts excluded_hosts) ∅ routers
  | None => ∅
  end.

(** * Python primitives *)

(** [s.find(sub) < 0] says that [sub] does not occur in [s]. *)
Lemma find_negative (s sub : string) : (Py.find s sub <? 0) = negb (Py.str_in sub s).
Proof.
  induction s as [|c s IH]; cbn [Py.find Py.str_in].
  - destruct sub; reflexivity.
  - destruct (String.prefix sub (String c s)); [reflexivity|]. cbn [orb negb].
    rewrite <- IH. destruct (Py.find s sub <? 0) eqn:Hneg; [reflexivity|].
    apply Z.ltb_ge in Hneg. apply Z.ltb_ge. lia.
Qed.

(** * Properties of the reconciler *)

Section ReconcilerFacts.
Context {W : Type} `{CloudFlareClient W}.

Lemma result_eta {A} (r : Result W A) : mkResult (outcome r) (world r) (trace r) = r.
Proof. destruct r; reflexivity. Qed.

Lemma calls_app (t1 t2 : list Event) : calls (t1 ++ t2) = calls t1 ++ calls t2.
Proof. unfold calls. apply flat_map_app. Qed.

Lemma writes_app (t1 t2 : list Event) : writes (t1 ++ t2) = writes t1 ++ writes t2.
Proof. unfold writes. rewrite calls_app. apply List.filter_app. Qed.

Lemma is_domain_excluded_in_run name dom_name subs (w : W) :
  exists t,
    is_domain_excluded_in name dom_name subs w
    = mkResult (Ret (excluded_by name dom_name subs)) w t
    /\ calls t = [] /\ (excluded_by name dom_name subs = false -> t = []).
Proof.
  induction subs as [|sub_dom rest IH]; simpl.
  - exists []. auto.
  - destruct (Py.str_in (sub_dom +:+ "." +:+ dom_name) name) eqn:Hin; simpl.
    + eexists. split; [reflexivity|]. split; [reflexivity|discriminate].
    + exact IH.
Qed.

Lemma get_records_loop_step retry rest zone_id name (w : W) :
  get_records_loop (retry :: rest) zone_id name w =
  match dns_records_get zone_id name w with
  | (inr records, w') => mkResult (Ret (Some records)) w' [Called (GET zone_id name)]
  | (inl err, w') =>
      if Py.str_in "Rate limited" (str err)
      then let r := get_records_loop rest zone_id name w' in
           mkResult (outcome r) (world r)
             (Called (GET zone_id name) :: Logged WARNING (MsgRetryIn (2 ^ (retry + 1)))
              :: trace r)
      else mkResult (Raise (APIError err)) w' [Called (GET zone_id name)]
  end.
Proof.
  simpl. unfold try_except, bind, client_get.
  destruct (dns_records_get zone_id name w) as [[err|records] w']; simpl; [|reflexivity].
  destruct (Py.str_in "Rate limited" (str err)); simpl; [|reflexivity].
  destruct (get_records_loop rest zone_id name w'); reflexivity.
Qed.

Lemma get_records_loop_outcome retries zone_id name (w : W) :
  (exists records, outcome (get_records_loop retries zone_id name w) = Ret (Some records))
  \/ (exists err, outcome (get_records_loop retries zone_id name w) = Raise (APIError err)
                  /\ Py.str_in "Rate limited" (str err) = false)
  \/ outcome (get_records_loop retries zone_id name w)
     = Raise (CloudFlareException "Max retries exceeded").
Proof.
  revert w. induction retries as [|retry rest IH]; intros w.
  - right; right; reflexivity.
  - rewrite get_records_loop_step.
    destruct (dns_records_get zone_id name w) as [[err|records] w'].
    + destruct (Py.str_in "Rate limited" (str err)) eqn:Hrl; simpl.
      * apply IH.
      * right; left; eauto.
    + left; eauto.
Qed.

Lemma get_records_loop_reads retries zone_id name (w : W) :
  writes (trace (get_records_loop retries zone_id name w)) = []
  /\ (length (gets (trace (get_records_loop retries zone_id name w))) <= length retries)%nat.
Proof.
  revert w. induction retries as [|retry rest IH]; intros w.
  - simpl. split; [reflexivity|lia].
  - rewrite get_records_loop_step.
    destruct (dns_records_get zone_id name w) as [[err|records] w'].
    + destruct (Py.str_in "Rate limited" (str err)); simpl.
      * destruct (IH w') as [Hw Hg]. split; [exact Hw|].
        unfold gets in *; simpl. lia.
      * split; [reflexivity|]. unfold gets; simpl; lia.
    + simpl. split; [reflexivity|]. unfold gets; simpl; lia.
Qed.

(** A pair the filter rejects leaves the flag, the provider and the call
    log as they were. *)
Lemma update_zone_rejected on_none self name domain_info ok (w : W) :
  passes_filter name domain_info = false ->
  exists t, update_zone_with on_none self name domain_info ok w = mkResult (Ret ok) w t
            /\ calls t = [].
Proof.
  unfold passes_filter, update_zone_with. intros Hrej.
  destruct (decide (Some name = DomainsModel.target_domain domain_info)) as [Heq|Hne].
  { exists []. auto. }
  rewrite bool_decide_eq_false_2 in Hrej by exact Hne.
  destruct (Py.find name (DomainsModel.name domain_info) <? 0) eqn:Hfind.
  { exists []. auto. }
  simpl in Hrej. apply negb_false_iff in Hrej.
  unfold bind, is_domain_excluded.
  destruct (is_domain_excluded_in_run name (DomainsModel.name domain_info)
              (DomainsModel.excluded_sub_domains domain_info) w) as (t & -> & Hc & _).
  unfold excluded_by in *. rewrite Hrej. simpl.
  exists (t ++ []). rewrite app_nil_r. auto.
Qed.

(** A pair the filter accepts goes on to the read. *)
Lemma update_zone_accepted on_none self name domain_info ok (w : W) :
  passes_filter name domain_info = true ->
  update_zone_with on_none self name domain_info ok w =
  bind (get_records self (DomainsModel.zone_id domain_info) name)
    (fun records =>
       match records with
       | None => on_none ok
       | Some records =>
           bind (int_ (DomainsModel.ttl domain_info))
             (fun ttl =>
                let data := payload (rc_type self) name domain_info ttl in
                try_except_unresolved
                  (bind
                     (if refresh_entries self && (0 <? Z.of_nat (length records))
                      then for_each records
                             (fun record =>
                                put_record self (DomainsModel.zone_id domain_info)
                                  (id record) data)
                      else post_record self (DomainsModel.zone_id domain_info) data)
                     (fun _ => ret ok))
                  (fun ex => bind (log ERROR (MsgProviderError name ex))
                               (fun _ => ret false)))
       end) w.
Proof.
  unfold passes_filter, update_zone_with. intros Hacc.
  apply andb_prop in Hacc as [Hacc Hex]. apply andb_prop in Hacc as [Htgt Hfind].
  apply negb_true_iff in Htgt, Hfind, Hex.
  apply bool_decide_eq_false_1 in Htgt.
  destruct (decide (Some name = DomainsModel.target_domain domain_info)); [contradiction|].
  rewrite Hfind.
  unfold bind at 1, is_domain_excluded.
  destruct (is_domain_excluded_in_run name (DomainsModel.name domain_info)
              (DomainsModel.excluded_sub_domains domain_info) w) as (t & -> & _ & Ht).
  unfold excluded_by in *. rewrite Hex. rewrite (Ht Hex). cbn [outcome world trace app].
  unfold payload. apply result_eta.
Qed.

Lemma bind_ext {A B} (m : M W A) (k1 k2 : A -> M W B) (w : W) :
  (forall a, outcome (m w) = Ret a -> k1 a (world (m w)) = k2 a (world (m w))) ->
  bind m k1 w = bind m k2 w.
Proof.
  intros Hk. unfold bind. destruct (outcome (m w)) as [a|e] eqn:Hout; [|reflexivity].
  rewrite (Hk a eq_refl). reflexivity.
Qed.

Lemma get_records_not_none self zone_id name (w : W) :
  outcome (get_records self zone_id name w) <> Ret None.
Proof.
  unfold get_records.
  destruct (get_records_loop_outcome (Py.range (max_retries self)) zone_id name w)
    as [(records & ->)|[(err & -> & _)| ->]]; discriminate.
Qed.

Lemma update_zone_with_on_none f g self name domain_info ok (w : W) :
  update_zone_with f self name domain_info ok w
  = update_zone_with g self name domain_info ok w.
Proof.
  unfold update_zone_with.
  destruct (decide (Some name = DomainsModel.target_domain domain_info)); [reflexivity|].
  destruct (Py.find name (DomainsModel.name domain_info) <? 0); [reflexivity|].
  apply bind_ext. intros [|] _; [reflexivity|].
  apply bind_ext. intros [records|] Hget; [reflexivity|].
  exfalso. exact (get_records_not_none _ _ _ _ Hget).
Qed.

Lemma update_zones_with_on_none f g self name domain_infos ok (w : W) :
  update_zones_with f self name domain_infos ok w
  = update_zones_with g self name domain_infos ok w.
Proof.
  revert ok w. induction domain_infos as [|domain_info rest IH]; intros ok w; simpl.
  - reflexivity.
  - unfold bind. rewrite (update_zone_with_on_none f g).
    destruct (outcome (update_zone_with g self name domain_info ok w)); [|reflexivity].
    rewrite IH. reflexivity.
Qed.

Lemma update_zones_with_skip on_none self name domain_info :
  (forall ok (w : W),
      update_zone_with on_none self name domain_info ok w = mkResult (Ret ok) w []) ->
  forall before after ok (w : W),
    update_zones_with on_none self name (before ++ domain_info :: after) ok w
    = update_zones_with on_none self name (before ++ after) ok w.
Proof.
  intros Hskip before after. induction before as [|d rest IH]; intros ok w; simpl.
  - unfold bind. rewrite Hskip. simpl. apply result_eta.
  - unfold bind.
    destruct (outcome (update_zone_with on_none self name d ok w)); [|reflexivity].
    rewrite IH. reflexivity.
Qed.

(** C7.  A hostname equal to the zone's [target_domain] is dropped by the
    first test of the loop body: the pair makes no GET, POST or PUT (its
    trace is empty and the provider is untouched) and leaves the success
    flag as it found it, so [update_zones] behaves as if the zone were not
    in the list. *)
Theorem update_zones_skips_target self name domain_info
  (Htarget : DomainsModel.target_domain domain_info = Some name) :
  (forall ok (w : W), update_zone self name domain_info ok w = mkResult (Ret ok) w [])
  /\ (forall before after (w : W),
         update_zones self name (before ++ domain_info :: after) w
         = update_zones self name (before ++ after) w).
Proof.
  assert (Hskip : forall ok (w : W),
             update_zone self name domain_info ok w = mkResult (Ret ok) w []).
  { intros ok w. unfold update_zone, update_zone_with. rewrite Htarget.
    destruct (decide (Some name = Some name)); [reflexivity|contradiction]. }
  split; [exact Hskip|].
  intros before after w. unfold update_zones. apply update_zones_with_skip. exact Hskip.
Qed.

(** C10.  [get_records] never returns [None]: a run ends with the
    provider's record list, with the provider's error when that is not a
    rate limit, or with [CloudFlareException] once the retries are used up.
    Hence the statement guarded by [records is None] in [update_zones] is
    never run: whatever is put in its place, [update_zones] behaves the
    same. *)
Theorem get_records_never_none self :
  (forall zone_id name (w : W),
      outcome (get_records self zone_id name w) <> Ret None
      /\ ((exists records, outcome (get_records self zone_id name w) = Ret (Some records))
          \/ (exists err, outcome (get_records self zone_id name w) = Raise (APIError err)
                          /\ Py.str_in "Rate limited" (str err) = false)
          \/ outcome (get_records self zone_id name w)
             = Raise (CloudFlareException "Max retries exceeded")))
  /\ (forall on_none name domain_infos (w : W),
         update_zones_with on_none self name domain_infos true w
         = update_zones self name domain_infos w).
Proof.
  split.
  - intros zone_id name w. split; [apply get_records_not_none|].
    apply get_records_loop_outcome.
  - intros on_none name domain_infos w. apply update_zones_with_on_none.
Qed.

Lemma writes_nil_posts_puts (t : list Event) :
  writes t = [] -> posts t = [] /\ puts t = [].
Proof.
  unfold writes, posts, puts. induction (calls t) as [|c cs IH]; simpl; [auto|].
  destruct c; simpl; [exact IH|discriminate|discriminate].
Qed.

Lemma calls_nil_writes (t : list Event) : calls t = [] -> writes t = [].
Proof. unfold writes. intros ->. reflexivity. Qed.

Lemma post_record_dry_run self zone_id data (w : W) :
  dry_run self = true ->
  post_record self zone_id data w
  = mkResult (Ret tt) w [Logged INFO (MsgDryRunPost zone_id data)].
Proof. intros Hdry. unfold post_record. rewrite Hdry. reflexivity. Qed.

Lemma put_record_dry_run self zone_id record_id data (w : W) :
  dry_run self = true ->
  put_record self zone_id record_id data w
  = mkResult (Ret tt) w [Logged INFO (MsgDryRunPut zone_id record_id data)].
Proof. intros Hdry. unfold put_record. rewrite Hdry. reflexivity. Qed.

Lemma for_each_put_dry_run self zone_id data records (w : W) :
  dry_run self = true ->
  exists t,
    for_each records (fun record => put_record self zone_id (id record) data) w
    = mkResult (Ret tt) w t
    /\ calls t = [].
Proof.
  intros Hdry. induction records as [|record rest IH]; simpl.
  - exists []. auto.
  - destruct IH as (t & IH & Hc). unfold bind. rewrite put_record_dry_run by exact Hdry. simpl.
    rewrite IH. simpl. eexists. split; [reflexivity|]. exact Hc.
Qed.

Lemma update_zone_dry_run self name domain_info ok (w : W) :
  dry_run self = true ->
  writes (trace (update_zone self name domain_info ok w)) = [].
Proof.
  intros Hdry. unfold update_zone.
  destruct (passes_filter name domain_info) eqn:Hf.
  - rewrite update_zone_accepted by exact Hf.
    unfold bind at 1.
    pose proof (get_records_loop_reads (Py.range (max_retries self))
                  (DomainsModel.zone_id domain_info) name w) as [Hw _].
    fold (get_records self (DomainsModel.zone_id domain_info) name) in Hw.
    destruct (get_records self (DomainsModel.zone_id domain_info) name w)
      as [[[records|]|e] w1 tg]; simpl in *.
    + rewrite writes_app, Hw. simpl.
      unfold bind at 1. destruct (DomainsModel.ttl domain_info) as [ttl|]; simpl; [|reflexivity].
      unfold try_except_unresolved, bind.
      destruct (refresh_entries self && (0 <? Z.of_nat (length records))).
      * destruct (for_each_put_dry_run self (DomainsModel.zone_id domain_info)
                    (payload (rc_type self) name domain_info ttl) records w1 Hdry)
          as (t & -> & Hc).
        simpl. rewrite app_nil_r. apply calls_nil_writes. exact Hc.
      * rewrite post_record_dry_run by exact Hdry. reflexivity.
    + rewrite app_nil_r. exact Hw.
    + exact Hw.
  - destruct (update_zone_rejected (fun _ => ret false) self name domain_info ok w Hf)
      as (t & -> & Hc).
    apply calls_nil_writes. exact Hc.
Qed.

Lemma update_zones_dry_run self name domain_infos ok (w : W) :
  dry_run self = true ->
  writes (trace (update_zones_with (fun _ => ret false) self name domain_infos ok w)) = [].
Proof.
  intros Hdry. revert ok w.
  induction domain_infos as [|domain_info rest IH]; intros ok w; simpl; [reflexivity|].
  unfold bind. pose proof (update_zone_dry_run self name domain_info ok w Hdry) as Hz.
  unfold update_zone in Hz.
  destruct (outcome (update_zone_with (fun _ => ret false) self name domain_info ok w));
    simpl; [|exact Hz].
  rewrite writes_app, Hz, IH. reflexivity.
Qed.

(** C2.  With [dry_run] set, [post_record] and [put_record] only log the
    intended call: they return without calling the client and leave the
    provider as it was.  Hence no POST and no PUT reaches the provider in
    any run of [update_zones]. *)
Theorem dry_run_no_write self (Hdry : dry_run self = true) :
  (forall zone_id data (w : W),
      post_record self zone_id data w
      = mkResult (Ret tt) w [Logged INFO (MsgDryRunPost zone_id data)])
  /\ (forall zone_id record_id data (w : W),
         put_record self zone_id record_id data w
         = mkResult (Ret tt) w [Logged INFO (MsgDryRunPut zone_id record_id data)])
  /\ (forall name domain_infos (w : W),
         posts (trace (update_zones self name domain_infos w)) = []
         /\ puts (trace (update_zones self name domain_infos w)) = []).
Proof.
  split; [|split].
  - intros. apply post_record_dry_run. exact Hdry.
  - intros. apply put_record_dry_run. exact Hdry.
  - intros name domain_infos w. apply writes_nil_posts_puts.
    unfold update_zones. apply update_zones_dry_run. exact Hdry.
Qed.

Lemma get_records_loop_backoff zone_id name (k : nat) :
  forall (s n : nat) (w w' : W),
    rate_limited_reads k zone_id name w = Some w' ->
    (k <= n)%nat ->
    get_records_loop (map Z.of_nat (seq s n)) zone_id name w
    = let r' := get_records_loop (map Z.of_nat (seq (s + k) (n - k))) zone_id name w' in
      mkResult (outcome r') (world r')
        (flat_map (backoff_events zone_id name) (map Z.of_nat (seq s k)) ++ trace r').
Proof.
  induction k as [|k IH]; intros s n w w' Hreads Hle.
  - simpl in Hreads. injection Hreads as <-.
    rewrite Nat.add_0_r, Nat.sub_0_r. simpl. symmetry. apply result_eta.
  - destruct n as [|n]; [lia|].
    simpl in Hreads.
    change (map Z.of_nat (seq s (S n))) with (Z.of_nat s :: map Z.of_nat (seq (S s) n)).
    rewrite get_records_loop_step.
    destruct (dns_records_get zone_id name w) as [[err|records] w1]; [|discriminate].
    destruct (Py.str_in "Rate limited" (str err)); [|discriminate].
    rewrite (IH (S s) n w1 w' Hreads) by lia.
    replace (S s + k)%nat with (s + S k)%nat by lia.
    replace (S n - S k)%nat with (n - k)%nat by lia.
    reflexivity.
Qed.

(** C3 (as amended).  [get_records] reads at most [max_retries] times.
    After [k] rate-limited reads, each followed by the warning that
    announces a wait of [2^(retry+1)] seconds, a successful read returns
    the provider's list provided [k < max_retries]; when
    [k = max_retries] the retries are used up and [CloudFlareException]
    is raised without a further read. *)
Theorem get_records_backoff self zone_id name (k : nat) (w w' : W)
  (Hlimited : rate_limited_reads k zone_id name w = Some w') :
  (length (gets (trace (get_records self zone_id name w)))
   <= Z.to_nat (max_retries self))%nat
  /\ (forall records w'',
         (k < Z.to_nat (max_retries self))%nat ->
         dns_records_get zone_id name w' = (inr records, w'') ->
         get_records self zone_id name w
         = mkResult (Ret (Some records)) w''
             (backoff_trace zone_id name k ++ [Called (GET zone_id name)]))
  /\ (k = Z.to_nat (max_retries self) ->
      get_records self zone_id name w
      = mkResult (Raise (CloudFlareException "Max retries exceeded")) w'
          (backoff_trace zone_id name k)).
Proof.
  unfold get_records, Py.range, backoff_trace, Py.range. rewrite Nat2Z.id.
  split; [|split].
  - pose proof (get_records_loop_reads
                  (map Z.of_nat (seq 0 (Z.to_nat (max_retries self)))) zone_id name w)
      as [_ Hg].
    rewrite length_map, length_seq in Hg. exact Hg.
  - intros records w'' Hlt Hget.
    rewrite (get_records_loop_backoff zone_id name k 0 _ w w' Hlimited) by lia.
    destruct (Z.to_nat (max_retries self) - k)%nat as [|m] eqn:Hm; [lia|].
    change (map Z.of_nat (seq (0 + k) (S m)))
      with (Z.of_nat (0 + k) :: map Z.of_nat (seq (S (0 + k)) m)).
    rewrite get_records_loop_step, Hget. reflexivity.
  - intros ->.
    rewrite (get_records_loop_backoff zone_id name _ 0 _ w w' Hlimited) by lia.
    rewrite Nat.sub_diag. simpl. rewrite app_nil_r. reflexivity.
Qed.

Lemma errors_logged_app (t1 t2 : list Event) :
  errors_logged (t1 ++ t2) = errors_logged t1 ++ errors_logged t2.
Proof. unfold errors_logged. apply List.filter_app. Qed.

Lemma put_record_run self zone_id record_id data (w : W) :
  dry_run self = false ->
  put_record self zone_id record_id data w
  = match dns_records_put zone_id record_id data w with
    | (None, w') =>
        mkResult (Ret tt) w'
          [Called (PUT zone_id record_id data);
           Logged INFO (MsgUpdated record_id zone_id data)]
    | (Some err, w') =>
        mkResult (Raise (APIError err)) w' [Called (PUT zone_id record_id data)]
    end.
Proof.
  intros Hwet. unfold put_record. rewrite Hwet. unfold bind, client_put.
  destruct (dns_records_put zone_id record_id data w) as [[err|] w']; reflexivity.
Qed.

Lemma post_record_run self zone_id data (w : W) :
  dry_run self = false ->
  post_record self zone_id data w
  = match dns_records_post zone_id data w with
    | (None, w') =>
        mkResult (Ret tt) w' [Called (POST zone_id data); Logged INFO (MsgCreated zone_id data)]
    | (Some err, w') => mkResult (Raise (APIError err)) w' [Called (POST zone_id data)]
    end.
Proof.
  intros Hwet. unfold post_record. rewrite Hwet. unfold bind, client_post.
  destruct (dns_records_post zone_id data w) as [[err|] w']; reflexivity.
Qed.

(** The guarded write phase of the loop body. *)
Lemma try_write_run {A} (body : M W A) name ok (w : W) :
  try_except_unresolved (bind body (fun _ => ret ok))
    (fun ex => bind (log ERROR (MsgProviderError name ex)) (fun _ => ret false)) w
  = match outcome (body w) with
    | Ret _ => mkResult (Ret ok) (world (body w)) (trace (body w))
    | Raise _ => mkResult (Raise no_attribute_exceptions) (world (body w)) (trace (body w))
    end.
Proof.
  unfold try_except_unresolved, bind.
  destruct (body w) as [[a|e] w' t]; simpl; rewrite ?app_nil_r; reflexivity.
Qed.

(** The PUT loop against [first_rejected_put]. *)
Lemma for_each_put_first_rejected self zone_id data records (w : W) :
  dry_run self = false ->
  let r := for_each records (fun record => put_record self zone_id (id record) data) w in
  match first_rejected_put zone_id data records w with
  | None => outcome r = Ret tt /\ calls (trace r) = map (put_call zone_id data) records
  | Some n =>
      (exists ex, outcome r = Raise (APIError ex))
      /\ (n < length records)%nat
      /\ calls (trace r) = map (put_call zone_id data) (firstn (S n) records)
  end.
Proof.
  intros Hwet. revert w. induction records as [|record rest IH]; intros w r.
  - subst r. simpl. auto.
  - subst r. simpl. unfold bind. rewrite put_record_run by exact Hwet.
    destruct (dns_records_put zone_id (id record) data w) as [[err|] w1]; simpl.
    + split; [eauto|]. split; [lia|reflexivity].
    + specialize (IH w1). simpl in IH.
      destruct (first_rejected_put zone_id data rest w1) as [n|]; simpl.
      * destruct IH as ((ex & Hout) & Hn & Hcalls).
        split; [eauto|]. split; [lia|]. rewrite Hcalls. reflexivity.
      * destruct IH as [Hout Hcalls]. split; [exact Hout|]. rewrite Hcalls. reflexivity.
Qed.

Lemma update_zone_after_read self name domain_info ttl ok (w w1 : W) records tg :
  passes_filter name domain_info = true ->
  DomainsModel.ttl domain_info = Some ttl ->
  get_records self (DomainsModel.zone_id domain_info) name w
  = mkResult (Ret (Some records)) w1 tg ->
  update_zone self name domain_info ok w
  = let zone_id := DomainsModel.zone_id domain_info in
    let data := payload (rc_type self) name domain_info ttl in
    let rw :=
      try_except_unresolved
        (bind
           (if refresh_entries self && (0 <? Z.of_nat (length records))
            then for_each records (fun record => put_record self zone_id (id record) data)
            else post_record self zone_id data)
           (fun _ => ret ok))
        (fun ex => bind (log ERROR (MsgProviderError name ex)) (fun _ => ret false)) w1 in
    mkResult (outcome rw) (world rw) (tg ++ trace rw).
Proof.
  intros Haccept Httl Hget. unfold update_zone.
  rewrite update_zone_accepted by exact Haccept.
  unfold bind at 1. rewrite Hget. cbn [outcome world trace].
  rewrite Httl. unfold bind at 1. cbn [int_ ret outcome world trace app].
  reflexivity.
Qed.

Lemma posts_put_calls zone_id data records :
  List.filter is_post (map (put_call zone_id data) records) = [].
Proof. induction records; simpl; auto. Qed.

(** C1 (as amended).  For a pair that passes the tests before the read,
    with the zone's [ttl] set and [dry_run] off, once the read has
    returned [records]: when [refresh_entries] is off or [records] is
    empty the pair makes exactly one client call after the read, the POST
    of the payload, and keeps the success flag when the provider accepts
    it; when [refresh_entries] is on and [records] is not empty it makes
    no POST and PUTs the payload to the records in order: to all of them,
    keeping the success flag, when the provider accepts every PUT, and
    otherwise up to and including the first record whose PUT the provider
    rejects. *)
Theorem update_zone_writes self name domain_info ttl ok (w w1 : W) records tg
  (Haccept : passes_filter name domain_info = true)
  (Httl : DomainsModel.ttl domain_info = Some ttl)
  (Hwet : dry_run self = false)
  (Hget : get_records self (DomainsModel.zone_id domain_info) name w
          = mkResult (Ret (Some records)) w1 tg) :
  let zone_id := DomainsModel.zone_id domain_info in
  let data := payload (rc_type self) name domain_info ttl in
  let r := update_zone self name domain_info ok w in
  exists tw,
    trace r = tg ++ tw
    /\ (refresh_entries self = false \/ records = [] ->
        calls tw = [POST zone_id data]
        /\ ((dns_records_post zone_id data w1).1 = None -> outcome r = Ret ok))
    /\ (refresh_entries self = true /\ records <> [] ->
        posts tw = []
        /\ match first_rejected_put zone_id data records w1 with
           | None => calls tw = map (put_call zone_id data) records /\ outcome r = Ret ok
           | Some n =>
               (n < length records)%nat
               /\ calls tw = map (put_call zone_id data) (firstn (S n) records)
           end).
Proof.
  intros zone_id data r. subst r.
  rewrite (update_zone_after_read self name domain_info ttl ok w w1 records tg
             Haccept Httl Hget).
  fold zone_id data. cbv zeta. rewrite try_write_run.
  destruct (refresh_entries self && (0 <? Z.of_nat (length records))) eqn:Hcond.
  - apply andb_prop in Hcond as [Hrefresh Hlen].
    assert (Hne : records <> []) by (intros ->; discriminate).
    pose proof (for_each_put_first_rejected self zone_id data records w1 Hwet) as Hput.
    cbv zeta in Hput.
    destruct (first_rejected_put zone_id data records w1) as [n|].
    + destruct Hput as ((ex & Hout) & Hn & Hcalls). rewrite Hout. cbn [outcome world trace].
      eexists. split; [reflexivity|]. split.
      { intros [Hoff| ->]; [congruence|contradiction]. }
      intros _. split; [unfold posts; rewrite Hcalls; apply posts_put_calls|]. auto.
    + destruct Hput as [Hout Hcalls]. rewrite Hout. cbn [outcome world trace].
      eexists. split; [reflexivity|]. split.
      { intros [Hoff| ->]; [congruence|contradiction]. }
      intros _. split; [unfold posts; rewrite Hcalls; apply posts_put_calls|]. auto.
  - assert (Hpost : refresh_entries self = true /\ records <> [] -> False).
    { intros [Hon Hne]. rewrite Hon in Hcond. simpl in Hcond.
      destruct records; [contradiction|]. simpl in Hcond. discriminate. }
    rewrite post_record_run by exact Hwet.
    destruct (dns_records_post zone_id data w1) as [[err|] w2];
      cbn [outcome world trace fst];
      (eexists; split; [reflexivity|]; split; [|intros Hc; destruct (Hpost Hc)]);
      intros _; (split; [reflexivity|]).
    + discriminate.
    + reflexivity.
Qed.
End ReconcilerFacts.

(** * Properties of the sync loop *)

Section SyncFacts.
Context {E : Type}.
Variable point_domain : string -> E -> Outcome bool * E.


Lemma sync_mapping_cases k v (w : SyncWorld.t E) :
  (needs_sync (synced w !! k) v = false
   /\ sync_mapping point_domain k v w = mkResult (Ret tt) w [])
  \/ (needs_sync (synced w !! k) v = true
      /\ exists res e,
          trace (sync_mapping point_domain k v w) = [Dispatched k res]
          /\ ((res = Ret true
               /\ outcome (sync_mapping point_domain k v w) = Ret tt
               /\ world (sync_mapping point_domain k v w)
                  = SyncWorld.mk (<[k := v]> (synced w)) e)
              \/ (res <> Ret true
                  /\ world (sync_mapping point_domain k v w) = SyncWorld.mk (synced w) e))).
Proof.
  unfold sync_mapping.
  destruct (needs_sync (synced w !! k) v) eqn:Hneeds; [right|left; auto].
  split; [reflexivity|].
  unfold bind, call_point_domain.
  destruct (point_domain k (SyncWorld.provider w)) as [[[|]|ex] e]; simpl.
  - exists (Ret true), e. split; [reflexivity|]. left. auto.
  - exists (Ret false), e. split; [reflexivity|]. right. split; [discriminate|reflexivity].
  - exists (Raise ex), e. split; [reflexivity|]. right. split; [discriminate|reflexivity].
Qed.

Lemma needs_sync_true (current : option Z) v :
  needs_sync current v = true <->
  current = None \/ exists rank, current = Some rank /\ v < rank.
Proof.
  unfold needs_sync. destruct current as [rank|].
  - rewrite Z.gtb_gt. split.
    + intros Hgt. right. exists rank. split; [reflexivity|lia].
    + intros [Hnone|(rank' & Heq & Hlt)]; [discriminate|].
      injection Heq as ->. lia.
  - split; auto.
Qed.

Lemma needs_sync_false (current : option Z) v :
  needs_sync current v = false <-> exists rank, current = Some rank /\ rank <= v.
Proof.
  unfold needs_sync. destruct current as [rank|].
  - rewrite Z.gtb_ltb, Z.ltb_ge. split.
    + intros Hle. exists rank. auto.
    + intros (rank' & Heq & Hle). injection Heq as ->. exact Hle.
  - split; [discriminate|]. intros (rank & Heq & _). discriminate.
Qed.

(** One item never raises a recorded rank. *)
Lemma sync_mapping_monotone k v (w : SyncWorld.t E) k0 rank :
  synced w !! k0 = Some rank ->
  exists rank', synced (world (sync_mapping point_domain k v w)) !! k0 = Some rank'
                /\ rank' <= rank.
Proof.
  intros Hk0.
  destruct (sync_mapping_cases k v w)
    as [[_ ->]|[Hneeds (res & e & _ & [(_ & _ & ->)|(_ & ->)])]]; simpl.
  - exists rank. split; [exact Hk0|lia].
  - destruct (decide (k = k0)) as [->|Hne].
    + rewrite lookup_insert_eq. exists v. split; [reflexivity|].
      rewrite Hk0 in Hneeds. simpl in Hneeds. apply Z.gtb_gt in Hneeds. lia.
    + rewrite lookup_insert_ne by exact Hne. exists rank. split; [exact Hk0|lia].
  - exists rank. split; [exact Hk0|lia].
Qed.

Lemma sync_mappings_cons k v rest (w : SyncWorld.t E) :
  sync_mappings point_domain ((k, v) :: rest) w
  = bind (sync_mapping point_domain k v) (fun _ => sync_mappings point_domain rest) w.
Proof. reflexivity. Qed.

Lemma sync_mappings_monotone mappings :
  forall (w : SyncWorld.t E) k0 rank,
    synced w !! k0 = Some rank ->
    exists rank', synced (world (sync_mappings point_domain mappings w)) !! k0 = Some rank'
                  /\ rank' <= rank.
Proof.
  induction mappings as [|[k v] rest IH]; intros w k0 rank Hk0.
  - exists rank. split; [exact Hk0|lia].
  - rewrite sync_mappings_cons. unfold bind.
    destruct (sync_mapping_monotone k v w k0 rank Hk0) as (rank1 & H1 & Hle1).
    destruct (outcome (sync_mapping point_domain k v w)); simpl.
    + destruct (IH _ k0 rank1 H1) as (rank2 & H2 & Hle2).
      exists rank2. split; [exact H2|lia].
    + exists rank1. auto.
Qed.

(** A test that succeeds later succeeds now: ranks only go down. *)
Lemma needs_sync_earlier k v (w w1 : SyncWorld.t E) :
  (forall rank, synced w !! k = Some rank ->
                exists rank', synced w1 !! k = Some rank' /\ rank' <= rank) ->
  needs_sync (synced w1 !! k) v = true ->
  needs_sync (synced w !! k) v = true.
Proof.
  intros Hmono Hlater. destruct (synced w !! k) as [rank|] eqn:Hk; [|reflexivity].
  destruct (Hmono rank eq_refl) as (rank' & Hk1 & Hle).
  rewrite Hk1 in Hlater. simpl in *. apply Z.gtb_gt in Hlater. apply Z.gtb_gt. lia.
Qed.

Lemma sync_mappings_guard mappings :
  forall (w : SyncWorld.t E) k res,
    In (Dispatched k res) (trace (sync_mappings point_domain mappings w)) ->
    exists v, In (k, v) mappings /\ needs_sync (synced w !! k) v = true.
Proof.
  induction mappings as [|[k1 v1] rest IH]; intros w k res Hin.
  - destruct Hin.
  - rewrite sync_mappings_cons in Hin. unfold bind in Hin.
    assert (Hstep : In (Dispatched k res) (trace (sync_mapping point_domain k1 v1 w)) ->
                    exists v, In (k, v) ((k1, v1) :: rest)
                              /\ needs_sync (synced w !! k) v = true).
    { intros Hin1.
      destruct (sync_mapping_cases k1 v1 w) as [[_ Heq]|[Hneeds (res1 & e & Ht & _)]].
      - rewrite Heq in Hin1. destruct Hin1.
      - rewrite Ht in Hin1. destruct Hin1 as [Heq|[]]. injection Heq as <- <-.
        exists v1. split; [left; reflexivity|exact Hneeds]. }
    destruct (outcome (sync_mapping point_domain k1 v1 w)); simpl in Hin.
    + apply in_app_or in Hin as [Hin|Hin]; [exact (Hstep Hin)|].
      destruct (IH _ k res Hin) as (v & Hv & Hneeds).
      exists v. split; [right; exact Hv|].
      eapply needs_sync_earlier; [|exact Hneeds].
      intros rank Hrank. apply sync_mapping_monotone. exact Hrank.
    + exact (Hstep Hin).
Qed.

Lemma sync_mapping_recorded k1 v1 (w : SyncWorld.t E) k rank' :
  synced (world (sync_mapping point_domain k1 v1 w)) !! k = Some rank' ->
  synced w !! k = Some rank'
  \/ (k = k1 /\ rank' = v1
      /\ trace (sync_mapping point_domain k1 v1 w) = [Dispatched k (Ret true)]
      /\ needs_sync (synced w !! k) v1 = true).
Proof.
  destruct (sync_mapping_cases k1 v1 w)
    as [[_ ->]|[Hneeds (res & e & Ht & [(-> & _ & ->)|(_ & ->)])]]; simpl; auto.
  destruct (decide (k1 = k)) as [->|Hne].
  - rewrite lookup_insert_eq. intros [= <-]. right. auto.
  - rewrite lookup_insert_ne by exact Hne. auto.
Qed.

Lemma sync_mappings_recorded mappings :
  forall (w : SyncWorld.t E) k rank',
    synced (world (sync_mappings point_domain mappings w)) !! k = Some rank' ->
    synced w !! k = Some rank'
    \/ (In (k, rank') mappings
        /\ In (Dispatched k (Ret true)) (trace (sync_mappings point_domain mappings w))
        /\ needs_sync (synced w !! k) rank' = true).
Proof.
  induction mappings as [|[k1 v1] rest IH]; intros w k rank' Hfinal.
  - left. exact Hfinal.
  - rewrite sync_mappings_cons in *. unfold bind in *.
    destruct (outcome (sync_mapping point_domain k1 v1 w)); simpl in *.
    + destruct (IH _ k rank' Hfinal) as [Hmid|(Hin & Hdisp & Hneeds)].
      * destruct (sync_mapping_recorded k1 v1 w k rank' Hmid)
          as [Hw|(-> & -> & Ht & Hneeds)]; [left; exact Hw|].
        right. split; [left; reflexivity|]. split; [|exact Hneeds].
        apply in_or_app. left. rewrite Ht. left. reflexivity.
      * right. split; [right; exact Hin|]. split; [apply in_or_app; right; exact Hdisp|].
        eapply needs_sync_earlier; [|exact Hneeds].
        intros rank Hrank. apply sync_mapping_monotone. exact Hrank.
    + destruct (sync_mapping_recorded k1 v1 w k rank' Hfinal)
        as [Hw|(-> & -> & Ht & Hneeds)]; [left; exact Hw|].
      right. split; [left; reflexivity|]. split; [|exact Hneeds].
      rewrite Ht. left. reflexivity.
Qed.

(** A reconciliation that succeeded leaves the hostname recorded, at the
    incoming rank or at a lower one recorded later in the same run. *)
Lemma sync_mappings_success_recorded mappings :
  forall (w : SyncWorld.t E) k,
    In (Dispatched k (Ret true)) (trace (sync_mappings point_domain mappings w)) ->
    exists v rank',
      In (k, v) mappings
      /\ synced (world (sync_mappings point_domain mappings w)) !! k = Some rank'
      /\ rank' <= v.
Proof.
  induction mappings as [|[k1 v1] rest IH]; intros w k Hin; [destruct Hin|].
  rewrite sync_mappings_cons in *. unfold bind in *.
  assert (Hstep : In (Dispatched k (Ret true)) (trace (sync_mapping point_domain k1 v1 w)) ->
                  k = k1
                  /\ outcome (sync_mapping point_domain k1 v1 w) = Ret tt
                  /\ synced (world (sync_mapping point_domain k1 v1 w)) !! k = Some v1).
  { intros Hin1.
    destruct (sync_mapping_cases k1 v1 w)
      as [[_ Heq]|[_ (res & e & Ht & [(_ & Hout & Hw)|(Hres & _)])]].
    - rewrite Heq in Hin1. destruct Hin1.
    - rewrite Ht in Hin1. destruct Hin1 as [[= <- _]|[]].
      rewrite Hw. simpl. rewrite lookup_insert_eq. auto.
    - rewrite Ht in Hin1. destruct Hin1 as [[= _ Hres']|[]]. contradiction. }
  destruct (outcome (sync_mapping point_domain k1 v1 w)) eqn:Hout; simpl in *.
  - apply in_app_or in Hin as [Hin|Hin].
    + destruct (Hstep Hin) as (-> & _ & Hrec).
      destruct (sync_mappings_monotone rest _ k1 v1 Hrec) as (rank' & Hrank' & Hle).
      exists v1, rank'. split; [left; reflexivity|]. auto.
    + destruct (IH _ k Hin) as (v & rank' & Hv & Hrank' & Hle).
      exists v, rank'. split; [right; exact Hv|]. auto.
  - destruct (Hstep Hin) as (_ & Hcontra & _). discriminate.
Qed.

(** After a delivery in which every reconciliation succeeded, no item of
    the snapshot passes the rank test any more. *)
Lemma sync_mappings_success_settles mappings :
  forall (w : SyncWorld.t E),
    outcome (sync_mappings point_domain mappings w) = Ret tt ->
    all_succeeded (trace (sync_mappings point_domain mappings w)) ->
    forall k v, In (k, v) mappings ->
      needs_sync (synced (world (sync_mappings point_domain mappings w)) !! k) v = false.
Proof.
  unfold all_succeeded.
  induction mappings as [|[k1 v1] rest IH]; intros w Hout Hall k v Hin; [destruct Hin|].
  rewrite sync_mappings_cons in *. unfold bind in *.
  destruct (outcome (sync_mapping point_domain k1 v1 w)) eqn:Hout1;
    simpl in *; [|discriminate].
  apply Forall_app in Hall as [Hall1 Hall2].
  destruct Hin as [[= -> ->]|Hin]; [|exact (IH _ Hout Hall2 k v Hin)].
  assert (Hmid : exists rank,
             synced (world (sync_mapping point_domain k v w)) !! k = Some rank
             /\ rank <= v).
  { destruct (sync_mapping_cases k v w)
      as [[Hno Heq]|[_ (res & e & Ht & [(_ & _ & Hw)|(Hres & _)])]].
    - rewrite Heq. simpl. apply needs_sync_false. exact Hno.
    - rewrite Hw. simpl. rewrite lookup_insert_eq. exists v. split; [reflexivity|lia].
    - rewrite Ht in Hall1. apply Forall_inv in Hall1 as (k' & [= _ Hres']).
      contradiction. }
  destruct Hmid as (rank & Hrank & Hle).
  destruct (sync_mappings_monotone rest _ k rank Hrank) as (rank' & Hrank' & Hle').
  apply needs_sync_false. exists rank'. split; [exact Hrank'|lia].
Qed.
End SyncFacts.

Section SyncTwice.
Context {E : Type}.

(** When no item passes the rank test, the loop calls nothing and changes
    nothing, whatever the reconciler. *)
Lemma sync_mappings_settled (point_domain : string -> E -> Outcome bool * E) mappings :
  forall (w : SyncWorld.t E),
    (forall k v, In (k, v) mappings -> needs_sync (synced w !! k) v = false) ->
    sync_mappings point_domain mappings w = mkResult (Ret tt) w [].
Proof.
  induction mappings as [|[k1 v1] rest IH]; intros w Hsettled; [reflexivity|].
  rewrite sync_mappings_cons. unfold bind.
  destruct (sync_mapping_cases point_domain k1 v1 w) as [[_ ->]|[Hneeds _]].
  - simpl. rewrite IH; [reflexivity|].
    intros k v Hin. apply Hsettled. right. exact Hin.
  - rewrite (Hsettled k1 v1) in Hneeds by (left; reflexivity). discriminate.
Qed.

(** C6.  In a run of [sync_mappings]: a reconciliation is dispatched for a
    hostname only if the synced map had no entry for it or the incoming
    rank was strictly lower than the recorded one; an entry of the map
    changes only by recording the incoming rank of such a hostname after
    its reconciliation succeeded, and a reconciliation that succeeded
    leaves its hostname recorded; a recorded rank is never replaced by an
    equal or higher one; and after a delivery whose reconciliations all
    succeeded, delivering the same snapshot again dispatches nothing and
    leaves everything as it is. *)
Theorem sync_mappings_rank_rule (point_domain : string -> E -> Outcome bool * E)
  (mappings : list (string * Z)) (w : SyncWorld.t E) :
  (forall k res,
      In (Dispatched k res) (trace (sync_mappings point_domain mappings w)) ->
      exists v, In (k, v) mappings
                /\ (synced w !! k = None
                    \/ exists rank, synced w !! k = Some rank /\ v < rank))
  /\ (forall k rank',
         synced (world (sync_mappings point_domain mappings w)) !! k = Some rank' ->
         synced w !! k = Some rank'
         \/ (In (k, rank') mappings
             /\ In (Dispatched k (Ret true))
                  (trace (sync_mappings point_domain mappings w))
             /\ (synced w !! k = None
                 \/ exists rank, synced w !! k = Some rank /\ rank' < rank)))
  /\ (forall k,
         In (Dispatched k (Ret true)) (trace (sync_mappings point_domain mappings w)) ->
         exists v rank',
           In (k, v) mappings
           /\ synced (world (sync_mappings point_domain mappings w)) !! k = Some rank'
           /\ rank' <= v)
  /\ (forall k rank,
         synced w !! k = Some rank ->
         exists rank',
           synced (world (sync_mappings point_domain mappings w)) !! k = Some rank'
           /\ rank' <= rank)
  /\ (outcome (sync_mappings point_domain mappings w) = Ret tt ->
      all_succeeded (trace (sync_mappings point_domain mappings w)) ->
      forall point_domain',
        sync_mappings point_domain' mappings
          (world (sync_mappings point_domain mappings w))
        = mkResult (Ret tt) (world (sync_mappings point_domain mappings w)) []).
Proof.
  split; [|split; [|split; [|split]]].
  - intros k res Hin.
    destruct (sync_mappings_guard point_domain mappings w k res Hin) as (v & Hv & Hneeds).
    exists v. split; [exact Hv|]. apply needs_sync_true. exact Hneeds.
  - intros k rank' Hfinal.
    destruct (sync_mappings_recorded point_domain mappings w k rank' Hfinal)
      as [Hw|(Hin & Hdisp & Hneeds)]; [left; exact Hw|].
    right. split; [exact Hin|]. split; [exact Hdisp|].
    apply needs_sync_true. exact Hneeds.
  - apply sync_mappings_success_recorded.
  - apply sync_mappings_monotone.
  - intros Hout Hall point_domain'. apply sync_mappings_settled.
    apply sync_mappings_success_settles; assumption.
Qed.
End SyncTwice.

(** * Concrete runs *)

(** Witness of C7: the first scenario of the test suite. *)
Lemma update_zones_skips_target_witness :
  DomainsModel.target_domain mock_domain_info = Some "target.example.com"
  /\ update_zone (mock_zones true false) "target.example.com" mock_domain_info true
       (Mock.returning [])
     = mkResult (Ret true) (Mock.returning []) [].
Proof.
  split; [reflexivity|].
  apply (@update_zones_skips_target Mock.t Mock.client (mock_zones true false)
           "target.example.com" mock_domain_info eq_refl).
Defined.

(** Witness of C2: the dry-run scenario of the test suite. *)
Lemma dry_run_no_write_witness :
  dry_run (mock_zones true true) = true
  /\ posts (trace (update_zones (mock_zones true true) "dryrun.example.com"
                     [mock_domain_info] (Mock.returning []))) = [].
Proof.
  split; [reflexivity|].
  apply (@dry_run_no_write Mock.t Mock.client (mock_zones true true) eq_refl).
Defined.

(** Witness of C3: two rate-limited reads, then an empty list. *)
Lemma get_records_backoff_witness :
  get_records (mock_zones true false) "zone_id" "rl.example.com"
    (Mock.mk [inl rate_limited; inl rate_limited; inr []] [] [] [])
  = mkResult (Ret (Some [])) (Mock.returning [])
      (backoff_trace "zone_id" "rl.example.com" 2 ++ [Called (GET "zone_id" "rl.example.com")]).
Proof.
  refine (proj1 (proj2 (@get_records_backoff Mock.t Mock.client (mock_zones true false)
                          "zone_id" "rl.example.com" 2
                          (Mock.mk [inl rate_limited; inl rate_limited; inr []] [] [] [])
                          (Mock.mk [inr []] [] [] []) _)) [] (Mock.returning []) _ _).
  - reflexivity.
  - vm_compute. lia.
  - reflexivity.
Defined.

(** Counterexample to C3 as stated: with [max_retries = 5], five
    rate-limited reads followed by an answer that would succeed.  The sixth
    read is never made: [get_records] raises after five reads, and the
    exception leaves [update_zones], which returns nothing. *)
Lemma get_records_max_retries_counterexample :
  rate_limited_reads 5 "zone_id" "rl.example.com" five_rate_limits_then_success
  = Some (Mock.mk [inr []] [] [] [])
  /\ outcome (get_records (mock_zones false false) "zone_id" "rl.example.com"
                five_rate_limits_then_success)
     = Raise (CloudFlareException "Max retries exceeded")
  /\ length (gets (trace (get_records (mock_zones false false) "zone_id" "rl.example.com"
                            five_rate_limits_then_success))) = 5%nat
  /\ outcome (update_zones (mock_zones false false) "rl.example.com" [mock_domain_info]
                five_rate_limits_then_success)
     <> Ret false.
Proof. vm_compute. repeat split; discriminate. Qed.

(** Witness of C1: the create-new scenario of the test suite. *)
Lemma update_zone_writes_witness :
  exists tw,
    trace (update_zone (mock_zones false false) "new.example.com" mock_domain_info true
             (Mock.returning []))
    = [Called (GET "zone_id" "new.example.com")] ++ tw
    /\ calls tw = [POST "zone_id" (mock_payload "new.example.com")].
Proof.
  destruct (@update_zone_writes Mock.t Mock.client (mock_zones false false) "new.example.com" mock_domain_info
              1 true (Mock.returning []) (Mock.returning []) []
              [Called (GET "zone_id" "new.example.com")]
              eq_refl eq_refl eq_refl eq_refl) as (tw & Ht & Hpost & _).
  exists tw. split; [exact Ht|].
  exact (proj1 (Hpost (or_introl eq_refl))).
Defined.

(** Counterexample to C1 as stated.  Both pairs pass the filter.  In a dry
    run with [refresh_entries] off and an empty read, no POST is issued; with
    [refresh_entries] on and two existing records of which the provider
    rejects the first PUT, one PUT is issued, not one per record. *)
Lemma update_zones_write_count_counterexample :
  (passes_filter "new.example.com" mock_domain_info = true
   /\ length (posts (trace (update_zones (mock_zones false true) "new.example.com"
                              [mock_domain_info] (Mock.returning [])))) <> 1%nat)
  /\ (passes_filter "existing.example.com" mock_domain_info = true
      /\ length (puts (trace (update_zones (mock_zones true false) "existing.example.com"
                                [mock_domain_info]
                                (Mock.mk [] two_records [] [Some internal_error]))))
         <> length two_records).
Proof. vm_compute. repeat split; discriminate. Qed.

(** C8 (the code departs from it).  The read of the first zone fails with a
    provider error that is not a rate limit: the error leaves
    [update_zones], nothing is logged, and the second zone is never
    processed.  When the provider rejects the POST of the first zone
    instead, the [except] clause written for that case fails to resolve
    its class: [AttributeError] leaves [update_zones], again with nothing
    logged and the second zone never processed. *)
Theorem update_zones_provider_errors_escape :
  update_zones (mock_zones false false) "new.example.com"
    [mock_domain_info; second_domain_info] (Mock.mk [inl internal_error] [] [] [])
  = mkResult (Raise (APIError internal_error)) (Mock.returning [])
      [Called (GET "zone_id" "new.example.com")]
  /\ update_zones (mock_zones false false) "new.example.com"
       [mock_domain_info; second_domain_info] (Mock.mk [] [] [Some internal_error] [])
     = mkResult (Raise no_attribute_exceptions) (Mock.returning [])
         [Called (GET "zone_id" "new.example.com");
          Called (POST "zone_id" (mock_payload "new.example.com"))].
Proof. split; reflexivity. Qed.

(** Witness of C6: two hostnames delivered twice to a reconciler that
    succeeds. *)
Lemma sync_mappings_rank_rule_witness :
  sync_mappings (fun (_ : string) (e : unit) => (Ret true, e))
    [("a.example.com", 1); ("b.example.com", 2)]
    (world (sync_mappings (fun (_ : string) (e : unit) => (Ret true, e))
              [("a.example.com", 1); ("b.example.com", 2)]
              (SyncWorld.mk ∅ tt)))
  = mkResult (Ret tt)
      (world (sync_mappings (fun (_ : string) (e : unit) => (Ret true, e))
                [("a.example.com", 1); ("b.example.com", 2)]
                (SyncWorld.mk ∅ tt)))
      [].
Proof.
  apply (sync_mappings_rank_rule (fun (_ : string) (e : unit) => (Ret true, e))
           [("a.example.com", 1); ("b.example.com", 2)]
           (SyncWorld.mk ∅ tt)).
  - reflexivity.
  - repeat constructor; eexists; reflexivity.
Defined.

(** * The settings *)

(** After the validator [update_domains] every zone has a [ttl], which is
    what [int(domain_info.ttl)] in [update_zones] relies on. *)
Lemma update_domains_ttl (settings : Settings.t) (dom : DomainsModel.t) :
  In dom (Settings.domains (Settings.update_domains settings)) ->
  exists ttl, DomainsModel.ttl dom = Some ttl.
Proof.
  simpl. intros Hin. apply in_map_iff in Hin as (raw & <- & _).
  unfold Settings.update_domain, Py.or_else. simpl.
  destruct (DomainsModel.ttl raw) as [ttl|]; [|eexists; reflexivity].
  destruct ttl; eexists; reflexivity.
Qed.

(** * The pollers *)

(** What [_is_valid_route] computes: the three keys are present and the
    router is enabled.  The rule is only inspected for a log record. *)
Lemma is_valid_route_ignores_rule {W} (route : Route) (w : W) :
  outcome (_is_valid_route route w)
  = Ret (bool_decide (is_Some (route !! "status"))
         && bool_decide (is_Some (route !! "name"))
         && bool_decide (is_Some (route !! "rule"))
         && String.eqb (getitem route "status") "enabled").
Proof.
  unfold _is_valid_route. simpl.
  destruct (bool_decide (is_Some (route !! "status"))); simpl; [|reflexivity].
  destruct (bool_decide (is_Some (route !! "name"))); simpl; [|reflexivity].
  destruct (bool_decide (is_Some (route !! "rule"))); simpl; [|reflexivity].
  destruct (String.eqb (getitem route "status") "enabled"); simpl; [|reflexivity].
  unfold bind.
  destruct (Py.str_in "Host" (getitem route "rule")); reflexivity.
Qed.

(** C9 (the code departs from it).  An enabled router with the three keys
    and no [Host] in its rule is not valid in the sense of the
    specification, and the deprecated [check_traefik] drops it; yet
    [_is_valid_route] logs [Missing Host] and returns [True], and
    [_validate] goes on to extract the hostnames of its rule. *)
Theorem is_valid_route_accepts_missing_host :
  is_valid_route_spec path_route = false
  /\ check_traefik_keeps path_route = false
  /\ _is_valid_route path_route tt
     = mkResult (Ret true) tt [Logged DEBUG (MsgRouterMissingHost "api")]
  /\ _validate [Py.re_any] [] [path_route] tt
     = mkResult (Ret ([], TRAEFIK)) tt
         [Logged DEBUG (MsgRouterMissingHost "api");
          Logged DEBUG (MsgRouterDomains "api" [])].
Proof. vm_compute. auto. Qed.

(** C4 (the code departs from it).  For a container whose only label is a
    router rule, the specification gives the host of the rule while [hosts]
    skips the label and returns nothing.  For a container with two labels
    that are not router rules, [hosts] returns the captures of the first
    one only, where the specification gives none. *)
Theorem hosts_skips_rule_labels :
  (hosts_spec (DockerContainer.labels web_container) = ["a.example.com"]
   /\ hosts web_container tt
      = mkResult (Ret [])  tt
          [Logged DEBUG (MsgSkippingLabel "traefik.http.routers.web.rule" (Some "c1"))])
  /\ (hosts_spec [("com.example.a", "Host(`a.example.com`)");
                  ("com.example.b", "Host(`b.example.com`)")] = []
      /\ outcome (hosts (DockerContainer.mk None
                           [("com.example.a", "Host(`a.example.com`)");
                            ("com.example.b", "Host(`b.example.com`)")]) tt)
         = Ret ["a.example.com"]).
Proof. vm_compute. auto. Qed.



(** * Further properties of the reconciler *)

Lemma bind_run {W A B} (m : M W A) (k : A -> M W B) (w : W) :
  bind m k w
  = match outcome (m w) with
    | Ret a =>
        mkResult (outcome (k a (world (m w)))) (world (k a (world (m w))))
          (trace (m w) ++ trace (k a (world (m w))))
    | Raise e => mkResult (Raise e) (world (m w)) (trace (m w))
    end.
Proof. reflexivity. Qed.

Section ReconcilerMore.
Context {W : Type} `{CloudFlareClient W}.

Lemma update_zones_with_rejected on_none self name domain_infos :
  Forall (fun domain_info => passes_filter name domain_info = false) domain_infos ->
  forall ok (w : W),
    exists t, update_zones_with on_none self name domain_infos ok w = mkResult (Ret ok) w t
              /\ calls t = [].
Proof.
  induction 1 as [|domain_info rest Hrej _ IH]; intros ok w; simpl.
  - exists []. auto.
  - unfold bind.
    destruct (update_zone_rejected on_none self name domain_info ok w Hrej) as (t1 & -> & Hc1).
    simpl. destruct (IH ok w) as (t2 & -> & Hc2). simpl.
    exists (t1 ++ t2). split; [reflexivity|]. rewrite calls_app, Hc1, Hc2. reflexivity.
Qed.

(** X1.  A hostname that every zone of the list rejects (it is the zone's
    target, does not contain the zone name, or falls under an excluded
    sub-domain) costs no client call: [update_zones] returns [True] and
    leaves the provider as it was. *)
Theorem update_zones_all_rejected self name domain_infos (w : W)
  (Hrej : Forall (fun domain_info => passes_filter name domain_info = false) domain_infos) :
  outcome (update_zones self name domain_infos w) = Ret true
  /\ world (update_zones self name domain_infos w) = w
  /\ calls (trace (update_zones self name domain_infos w)) = [].
Proof.
  unfold update_zones.
  destruct (update_zones_with_rejected (fun _ => ret false) self name domain_infos Hrej true w)
    as (t & -> & Hc).
  auto.
Qed.

Lemma is_domain_excluded_log name dom (w : W) :
  is_domain_excluded name dom w
  = mkResult
      (Ret (excluded_by name (DomainsModel.name dom) (DomainsModel.excluded_sub_domains dom)))
      w
      match List.find (fun sub_dom => Py.str_in (sub_dom +:+ "." +:+ DomainsModel.name dom) name)
              (DomainsModel.excluded_sub_domains dom) with
      | Some sub_dom => [Logged INFO (MsgIgnoringExcluded name sub_dom)]
      | None => []
      end.
Proof.
  unfold is_domain_excluded, excluded_by.
  induction (DomainsModel.excluded_sub_domains dom) as [|sub_dom rest IH]; simpl.
  - reflexivity.
  - destruct (Py.str_in (sub_dom +:+ "." +:+ DomainsModel.name dom) name); simpl.
    + reflexivity.
    + exact IH.
Qed.

(** X2.  [is_domain_excluded] returns [True] exactly when some excluded
    sub-domain, joined to the zone name by a dot, occurs in the hostname; it
    then logs one INFO record, naming the first such sub-domain of the list,
    and logs nothing otherwise.  It never touches the provider. *)
Theorem is_domain_excluded_first_match name dom (w : W) :
  is_domain_excluded name dom w
  = mkResult
      (Ret (excluded_by name (DomainsModel.name dom) (DomainsModel.excluded_sub_domains dom)))
      w
      match List.find (fun sub_dom => Py.str_in (sub_dom +:+ "." +:+ DomainsModel.name dom) name)
              (DomainsModel.excluded_sub_domains dom) with
      | Some sub_dom => [Logged INFO (MsgIgnoringExcluded name sub_dom)]
      | None => []
      end.
Proof. apply is_domain_excluded_log. Qed.


Lemma get_records_loop_calls retries zone_id name (w : W) :
  exists g,
    calls (trace (get_records_loop retries zone_id name w)) = repeat (GET zone_id name) g
    /\ (g <= length retries)%nat
    /\ errors_logged (trace (get_records_loop retries zone_id name w)) = [].
Proof.
  revert w. induction retries as [|retry rest IH]; intros w.
  - exists 0%nat. simpl. auto.
  - rewrite get_records_loop_step.
    destruct (dns_records_get zone_id name w) as [[err|records] w'].
    + destruct (Py.str_in "Rate limited" (str err)); simpl.
      * destruct (IH w') as (g & Hc & Hg & He).
        exists (S g). simpl. rewrite Hc. split; [reflexivity|]. split; [lia|exact He].
      * exists 1%nat. simpl. split; [reflexivity|]. split; [lia|reflexivity].
    + exists 1%nat. simpl. split; [reflexivity|]. split; [lia|reflexivity].
Qed.

Lemma quiet_writes_app zone_id data t1 t2 :
  quiet_writes zone_id data t1 -> quiet_writes zone_id data t2 ->
  quiet_writes zone_id data (t1 ++ t2).
Proof.
  intros (Hw1 & Hg1 & He1) (Hw2 & Hg2 & He2). unfold quiet_writes.
  rewrite calls_app, List.filter_app, errors_logged_app, Hg1, Hg2, He1, He2.
  split; [apply Forall_app; auto|]. auto.
Qed.

Lemma put_record_quiet self zone_id record_id data (w : W) :
  quiet_writes zone_id data (trace (put_record self zone_id record_id data w))
  /\ List.filter is_post (calls (trace (put_record self zone_id record_id data w))) = []
  /\ (forall e, outcome (put_record self zone_id record_id data w) = Raise e ->
                exists err, e = APIError err).
Proof.
  unfold put_record, quiet_writes.
  destruct (dry_run self).
  - simpl. repeat split; auto. discriminate.
  - unfold bind, client_put.
    destruct (dns_records_put zone_id record_id data w) as [[err|] w']; simpl.
    + repeat split; auto.
      * constructor; [|constructor]. right. eauto.
      * intros e [= <-]. eauto.
    + repeat split; auto.
      * constructor; [|constructor]. right. eauto.
      * discriminate.
Qed.

Lemma for_each_put_quiet self zone_id data records (w : W) :
  quiet_writes zone_id data
    (trace (for_each records (fun record => put_record self zone_id (id record) data) w))
  /\ List.filter is_post
       (calls (trace (for_each records
                        (fun record => put_record self zone_id (id record) data) w))) = []
  /\ (forall e,
         outcome (for_each records (fun record => put_record self zone_id (id record) data) w)
         = Raise e -> exists err, e = APIError err).
Proof.
  revert w. induction records as [|record rest IH]; intros w; simpl.
  - unfold quiet_writes. simpl. repeat split; auto. discriminate.
  - unfold bind.
    destruct (put_record_quiet self zone_id (id record) data w) as (Hq & Hp & Hr).
    destruct (outcome (put_record self zone_id (id record) data w)) as [u|e] eqn:Hout;
      cbn [outcome world trace].
    + destruct (IH (world (put_record self zone_id (id record) data w))) as (Hq' & Hp' & Hr').
      split; [apply quiet_writes_app; assumption|].
      split; [rewrite calls_app, List.filter_app, Hp, Hp'; reflexivity|exact Hr'].
    + split; [exact Hq|]. split; [exact Hp|].
      intros e' [= <-]. exact (Hr e eq_refl).
Qed.

Lemma post_record_quiet self zone_id data (w : W) :
  quiet_writes zone_id data (trace (post_record self zone_id data w))
  /\ (length (List.filter is_post (calls (trace (post_record self zone_id data w)))) <= 1)%nat
  /\ (forall e, outcome (post_record self zone_id data w) = Raise e ->
                exists err, e = APIError err).
Proof.
  unfold post_record, quiet_writes.
  destruct (dry_run self).
  - simpl. repeat split; auto. discriminate.
  - unfold bind, client_post.
    destruct (dns_records_post zone_id data w) as [[err|] w']; simpl.
    + repeat split; auto.
      * constructor; [|constructor]. left. reflexivity.
      * intros e [= <-]. eauto.
    + repeat split; auto.
      * constructor; [|constructor]. left. reflexivity.
      * discriminate.
Qed.

Lemma put_record_raise_calls self zone_id record_id data (w : W) e :
  outcome (put_record self zone_id record_id data w) = Raise e ->
  calls (trace (put_record self zone_id record_id data w)) <> [].
Proof.
  unfold put_record. destruct (dry_run self); [discriminate|].
  unfold bind, client_put.
  destruct (dns_records_put zone_id record_id data w) as [[err|] w']; simpl; discriminate.
Qed.

Lemma for_each_put_raise_calls self zone_id data records (w : W) e :
  outcome (for_each records (fun record => put_record self zone_id (id record) data) w)
  = Raise e ->
  calls (trace (for_each records (fun record => put_record self zone_id (id record) data) w))
  <> [].
Proof.
  revert w. induction records as [|record rest IH]; intros w; simpl; [discriminate|].
  rewrite bind_run.
  destruct (outcome (put_record self zone_id (id record) data w)) as [u|e'] eqn:Hout;
    cbn [outcome world trace].
  - intros Hraise Hnil. rewrite calls_app in Hnil. apply app_eq_nil in Hnil as [_ Hnil].
    exact (IH _ Hraise Hnil).
  - intros _. exact (put_record_raise_calls self zone_id (id record) data w e' Hout).
Qed.

Lemma post_record_raise_calls self zone_id data (w : W) e :
  outcome (post_record self zone_id data w) = Raise e ->
  calls (trace (post_record self zone_id data w)) <> [].
Proof.
  unfold post_record. destruct (dry_run self); [discriminate|].
  unfold bind, client_post.
  destruct (dns_records_post zone_id data w) as [[err|] w']; simpl; discriminate.
Qed.

Lemma filter_not_get (cs : list Call) :
  List.filter is_get cs = [] -> List.filter (fun c => negb (is_get c)) cs = cs.
Proof.
  induction cs as [|c cs IH]; simpl; [reflexivity|].
  destruct (is_get c); simpl; [discriminate|]. intros Hcs. rewrite IH by exact Hcs. reflexivity.
Qed.

(** Everything a pair can do, in one statement. *)
Lemma update_zone_summary self name domain_info ok (w : W) :
  exists g cw,
    calls (trace (update_zone self name domain_info ok w))
    = repeat (GET (DomainsModel.zone_id domain_info) name) g ++ cw
    /\ (g <= Z.to_nat (max_retries self))%nat
    /\ (passes_filter name domain_info = false -> g = 0%nat /\ cw = [])
    /\ (cw = []
        \/ exists ttl,
            DomainsModel.ttl domain_info = Some ttl
            /\ Forall (write_of (DomainsModel.zone_id domain_info)
                         (payload (rc_type self) name domain_info ttl)) cw)
    /\ List.filter is_get cw = []
    /\ (length (List.filter is_post cw) <= 1)%nat
    /\ errors_logged (trace (update_zone self name domain_info ok w)) = []
    /\ match outcome (update_zone self name domain_info ok w) with
       | Ret b => b = ok
       | Raise e =>
           escapes_update_zones e
           /\ (forall msg, e = TypeError msg -> DomainsModel.ttl domain_info = None)
           /\ (forall msg, e = AttributeError msg ->
               writes (trace (update_zone self name domain_info ok w)) <> [])
       end.
Proof.
  remember (update_zone self name domain_info ok w) as r eqn:Hr.
  destruct (passes_filter name domain_info) eqn:Hf.
  - unfold update_zone in Hr. rewrite update_zone_accepted in Hr by exact Hf.
    set (zone_id := DomainsModel.zone_id domain_info) in *.
    rewrite bind_run in Hr. unfold get_records in Hr.
    destruct (get_records_loop_calls (Py.range (max_retries self)) zone_id name w)
      as (g & Hc & Hg & He).
    unfold Py.range in Hg. rewrite length_map, length_seq in Hg.
    pose proof (get_records_loop_outcome (Py.range (max_retries self)) zone_id name w) as Hout.
    destruct (get_records_loop (Py.range (max_retries self)) zone_id name w)
      as [o w1 tg]; cbn [outcome world trace] in *.
    destruct o as [[records|]|e]; cbn [outcome world trace] in Hr.
    + rewrite bind_run in Hr.
      destruct (DomainsModel.ttl domain_info) as [ttl|] eqn:Httl;
        cbn [int_ ret raise outcome world trace app] in Hr.
      * rewrite try_write_run in Hr.
        set (data := payload (rc_type self) name domain_info ttl) in *.
        set (body := if refresh_entries self && (0 <? Z.of_nat (length records))
                     then for_each records
                            (fun record => put_record self zone_id (id record) data)
                     else post_record self zone_id data) in *.
        assert (Hbody : quiet_writes zone_id data (trace (body w1))
                        /\ (length (List.filter is_post (calls (trace (body w1)))) <= 1)%nat
                        /\ (forall e, outcome (body w1) = Raise e ->
                                      calls (trace (body w1)) <> [])).
        { subst body. destruct (refresh_entries self && (0 <? Z.of_nat (length records))).
          - destruct (for_each_put_quiet self zone_id data records w1) as (Hq & Hp & _).
            split; [exact Hq|]. split; [rewrite Hp; simpl; lia|].
            apply for_each_put_raise_calls.
          - destruct (post_record_quiet self zone_id data w1) as (Hq & Hp & _).
            split; [exact Hq|]. split; [exact Hp|]. apply post_record_raise_calls. }
        destruct Hbody as ((Hw & Hgets & Herr) & Hposts & Hraise).
        destruct (outcome (body w1)) as [u|e] eqn:Hob; cbn [outcome world trace] in Hr.
        -- rewrite Hr. cbn [outcome world trace].
           exists g, (calls (trace (body w1))).
           rewrite calls_app, Hc. split; [reflexivity|]. split; [exact Hg|].
           split; [discriminate|]. split; [right; eauto|]. split; [exact Hgets|].
           split; [exact Hposts|].
           split; [rewrite errors_logged_app, He, Herr; reflexivity|reflexivity].
        -- rewrite Hr. cbn [outcome world trace].
           exists g, (calls (trace (body w1))).
           rewrite calls_app, Hc.
           split; [reflexivity|]. split; [exact Hg|].
           split; [discriminate|]. split; [right; eauto|]. split; [exact Hgets|].
           split; [exact Hposts|].
           split; [rewrite errors_logged_app, He, Herr; reflexivity|].
           split; [reflexivity|]. split; [discriminate|].
           intros msg _ Hnil. rewrite writes_app in Hnil.
           apply app_eq_nil in Hnil as [_ Hnil]. unfold writes in Hnil.
           rewrite filter_not_get in Hnil by exact Hgets.
           exact (Hraise e eq_refl Hnil).
      * rewrite Hr. cbn [outcome world trace].
        exists g, []. rewrite !calls_app, Hc. simpl.
        split; [reflexivity|]. split; [exact Hg|]. split; [discriminate|].
        split; [left; reflexivity|]. split; [reflexivity|]. split; [lia|].
        split; [rewrite errors_logged_app, He; reflexivity|].
        split; [reflexivity|]. split; [reflexivity|discriminate].
    + destruct Hout as [(records & Hrec)|[(err & Hrec & _)|Hrec]]; discriminate.
    + rewrite Hr. cbn [outcome world trace].
      exists g, []. rewrite app_nil_r.
      split; [exact Hc|]. split; [exact Hg|]. split; [discriminate|].
      split; [left; reflexivity|]. split; [reflexivity|]. split; [simpl; lia|].
      split; [exact He|].
      destruct Hout as [(records & Hrec)|[(err & [= ->] & Hrl)|[= ->]]];
        [discriminate| |]; (split; [assumption || reflexivity|]);
        (split; discriminate).
  - exists 0%nat, []. unfold update_zone in Hr.
    assert (Hrun : exists t,
               update_zone_with (fun _ => ret false) self name domain_info ok w
               = mkResult (Ret ok) w t /\ calls t = [] /\ errors_logged t = []).
    { unfold passes_filter in Hf. unfold update_zone_with.
      destruct (decide (Some name = DomainsModel.target_domain domain_info)) as [Heq|Hne].
      { exists []. auto. }
      rewrite bool_decide_eq_false_2 in Hf by exact Hne.
      destruct (Py.find name (DomainsModel.name domain_info) <? 0).
      { exists []. auto. }
      simpl in Hf. apply negb_false_iff in Hf.
      unfold bind. rewrite is_domain_excluded_log. cbn [outcome world trace].
      rewrite Hf. cbn [ret outcome world trace].
      eexists. split; [reflexivity|].
      destruct (List.find _ _); simpl; auto. }
    destruct Hrun as (t & Hrun & Hc & He). rewrite Hrun in Hr. rewrite Hr.
    cbn [outcome world trace]. rewrite Hc. simpl.
    split; [reflexivity|]. split; [lia|]. split; [auto|].
    split; [left; reflexivity|]. split; [reflexivity|]. split; [lia|]. auto.
Qed.


Lemma call_allowed_cons rc name domain_info rest c :
  call_allowed rc name rest c -> call_allowed rc name (domain_info :: rest) c.
Proof.
  intros (d & Hin & Hrest). exists d. split; [right; exact Hin|exact Hrest].
Qed.

Lemma update_zone_calls_allowed self name domain_info rest ok (w : W) :
  Forall (call_allowed (rc_type self) name (domain_info :: rest))
    (calls (trace (update_zone self name domain_info ok w))).
Proof.
  destruct (update_zone_summary self name domain_info ok w)
    as (g & cw & -> & _ & Hrej & Hcw & _).
  destruct (passes_filter name domain_info) eqn:Hf.
  - apply Forall_app. split.
    + apply List.Forall_forall. intros c Hc. apply repeat_spec in Hc as ->.
      exists domain_info. split; [left; reflexivity|]. split; [exact Hf|]. left. reflexivity.
    + destruct Hcw as [->|(ttl & Httl & Hall)]; [constructor|].
      eapply List.Forall_impl; [|exact Hall]. intros c Hc.
      exists domain_info. split; [left; reflexivity|]. split; [exact Hf|]. right. eauto.
  - destruct (Hrej eq_refl) as [-> ->]. constructor.
Qed.

(** X4.  Every client call of a run of [update_zones] concerns the hostname
    and a zone of the list that accepts it: a read of the hostname in that
    zone, or a POST or PUT to that zone of the payload built from the
    hostname and that zone. *)
Theorem update_zones_calls_allowed self name domain_infos (w : W) :
  Forall (call_allowed (rc_type self) name domain_infos)
    (calls (trace (update_zones self name domain_infos w))).
Proof.
  unfold update_zones. generalize true as ok. revert w.
  induction domain_infos as [|domain_info rest IH]; intros w ok; simpl; [constructor|].
  rewrite bind_run.
  pose proof (update_zone_calls_allowed self name domain_info rest ok w) as Hhead.
  unfold update_zone in Hhead.
  destruct (outcome (update_zone_with (fun _ => ret false) self name domain_info ok w));
    cbn [outcome world trace]; [|exact Hhead].
  rewrite calls_app. apply Forall_app. split; [exact Hhead|].
  eapply List.Forall_impl; [|apply IH]. intros c. apply call_allowed_cons.
Qed.

Lemma filter_repeat_get zone_id name g :
  List.filter is_get (repeat (GET zone_id name) g) = repeat (GET zone_id name) g
  /\ List.filter is_post (repeat (GET zone_id name) g) = [].
Proof. induction g as [|g [IH1 IH2]]; simpl; [auto|]. rewrite IH1, IH2. auto. Qed.

Lemma update_zone_call_counts self name domain_info ok (w : W) :
  (length (gets (trace (update_zone self name domain_info ok w)))
   <= Z.to_nat (max_retries self))%nat
  /\ (length (posts (trace (update_zone self name domain_info ok w))) <= 1)%nat.
Proof.
  unfold gets, posts.
  destruct (update_zone_summary self name domain_info ok w)
    as (g & cw & -> & Hg & _ & _ & Hgets & Hposts & _).
  rewrite !List.filter_app.
  destruct (filter_repeat_get (DomainsModel.zone_id domain_info) name g) as [-> ->].
  rewrite Hgets, app_nil_r, repeat_length. simpl. auto.
Qed.

(** X5.  A run of [update_zones] makes at most [max_retries] reads and at
    most one POST per zone of the list. *)
Theorem update_zones_call_counts self name domain_infos (w : W) :
  (length (gets (trace (update_zones self name domain_infos w)))
   <= length domain_infos * Z.to_nat (max_retries self))%nat
  /\ (length (posts (trace (update_zones self name domain_infos w)))
      <= length domain_infos)%nat.
Proof.
  unfold update_zones. generalize true as ok. revert w.
  induction domain_infos as [|domain_info rest IH]; intros w ok; simpl.
  - unfold gets, posts. simpl. lia.
  - rewrite bind_run.
    pose proof (update_zone_call_counts self name domain_info ok w) as [Hg Hp].
    unfold update_zone in Hg, Hp.
    destruct (outcome (update_zone_with (fun _ => ret false) self name domain_info ok w))
      as [ok'|e]; cbn [outcome world trace].
    + destruct (IH (world (update_zone_with (fun _ => ret false) self name domain_info ok w))
                  ok') as [Hg' Hp'].
      unfold gets, posts in *. rewrite calls_app, !List.filter_app, !length_app. lia.
    + lia.
Qed.

Lemma update_zones_with_flag self name domain_infos :
  forall ok (w : W),
    errors_logged
      (trace (update_zones_with (fun _ => ret false) self name domain_infos ok w)) = []
    /\ match outcome (update_zones_with (fun _ => ret false) self name domain_infos ok w) with
       | Ret b => b = ok
       | Raise e =>
           escapes_update_zones e
           /\ (forall msg, e = TypeError msg ->
                           exists domain_info,
                             In domain_info domain_infos
                             /\ DomainsModel.ttl domain_info = None)
           /\ (forall msg, e = AttributeError msg ->
               writes (trace (update_zones_with (fun _ => ret false) self name
                                domain_infos ok w)) <> [])
       end.
Proof.
  induction domain_infos as [|domain_info rest IH]; intros ok w; simpl.
  - auto.
  - rewrite bind_run.
    destruct (update_zone_summary self name domain_info ok w)
      as (g & cw & _ & _ & _ & _ & _ & _ & Herr & Hout).
    unfold update_zone in Herr, Hout.
    destruct (outcome (update_zone_with (fun _ => ret false) self name domain_info ok w))
      as [ok'|e]; cbn [outcome world trace].
    + subst ok'.
      destruct (IH ok (world (update_zone_with (fun _ => ret false) self name
                                domain_info ok w))) as [Herr' Hout'].
      split; [rewrite errors_logged_app, Herr, Herr'; reflexivity|].
      destruct (outcome (update_zones_with (fun _ => ret false) self name rest ok _))
        as [b|e]; [exact Hout'|].
      destruct Hout' as (Hesc & Hty & Hattr). split; [exact Hesc|]. split.
      * intros msg Hmsg. destruct (Hty msg Hmsg) as (d & Hin & Hd).
        exists d. split; [right; exact Hin|exact Hd].
      * intros msg Hmsg Hnil. rewrite writes_app in Hnil.
        apply app_eq_nil in Hnil as [_ Hnil]. exact (Hattr msg Hmsg Hnil).
    + split; [exact Herr|].
      destruct Hout as (Hesc & Hty & Hattr). split; [exact Hesc|]. split.
      * intros msg Hmsg. exists domain_info. split; [left; reflexivity|eauto].
      * exact Hattr.
Qed.

(** X3.  [update_zones] never returns [False] and never logs an ERROR
    record: the handler that would do both cannot be entered, so a run
    either returns [True] or ends with an exception. *)
Theorem update_zones_never_false self name domain_infos (w : W) :
  outcome (update_zones self name domain_infos w) <> Ret false
  /\ errors_logged (trace (update_zones self name domain_infos w)) = [].
Proof.
  unfold update_zones.
  destruct (update_zones_with_flag self name domain_infos true w) as [Herr Hout].
  split; [|exact Herr].
  destruct (outcome (update_zones_with (fun _ => ret false) self name domain_infos true w))
    as [b|e]; [|discriminate].
  subst b. discriminate.
Qed.

(** X7.  The only exceptions that leave [update_zones] are a provider
    error that is not a rate limit, [CloudFlareException] with the message
    [Max retries exceeded], the [TypeError] of [int(None)], only when a zone
    of the list has no [ttl], and the [AttributeError] of the [except]
    clause of the writes, only after a POST or PUT has been issued. *)
Theorem update_zones_escaping_exceptions self name domain_infos (w : W) e
  (Hraise : outcome (update_zones self name domain_infos w) = Raise e) :
  match e with
  | APIError err => Py.str_in "Rate limited" (str err) = false
  | CloudFlareException msg => msg = "Max retries exceeded"
  | TypeError msg =>
      msg = "int() argument must be a string, a bytes-like object or a real number, not 'NoneType'"
      /\ exists domain_info,
          In domain_info domain_infos /\ DomainsModel.ttl domain_info = None
  | AttributeError msg =>
      msg = "type object 'CloudFlare' has no attribute 'exceptions'"
      /\ writes (trace (update_zones self name domain_infos w)) <> []
  end.
Proof.
  unfold update_zones in *.
  destruct (update_zones_with_flag self name domain_infos true w) as [_ Hflag].
  rewrite Hraise in Hflag. destruct Hflag as (Hesc & Hty & Hattr).
  destruct e as [err|msg|msg|msg]; [exact Hesc|exact Hesc| |].
  - split; [exact Hesc|exact (Hty msg eq_refl)].
  - split; [exact Hesc|exact (Hattr msg eq_refl)].
Qed.


(** X6.  A provider error that is not a rate limit ends [get_records] at
    once, also after earlier rate-limited reads: the same error is raised
    again, after the reads made so far and without a warning for it. *)
Theorem get_records_reraises_other_errors self zone_id name (k : nat) (w w' w'' : W) err
  (Hlimited : rate_limited_reads k zone_id name w = Some w')
  (Hk : (k < Z.to_nat (max_retries self))%nat)
  (Hget : dns_records_get zone_id name w' = (inl err, w''))
  (Hother : Py.str_in "Rate limited" (str err) = false) :
  get_records self zone_id name w
  = mkResult (Raise (APIError err)) w''
      (backoff_trace zone_id name k ++ [Called (GET zone_id name)]).
Proof.
  unfold get_records, Py.range, backoff_trace, Py.range. rewrite Nat2Z.id.
  rewrite (get_records_loop_backoff zone_id name k 0 _ w w' Hlimited) by lia.
  destruct (Z.to_nat (max_retries self) - k)%nat as [|m] eqn:Hm; [lia|].
  change (map Z.of_nat (seq (0 + k) (S m)))
    with (Z.of_nat (0 + k) :: map Z.of_nat (seq (S (0 + k)) m)).
  rewrite get_records_loop_step, Hget, Hother. reflexivity.
Qed.

End ReconcilerMore.


(** * The publish/subscribe interface of the pollers, and the logger *)

Section PollerFacts.
Context {Callback Data : Type} `{EqDecision Callback}.
Implicit Types subscribers : @Poller.Subscribers Callback Data.

Lemma setdefault_nonempty callback subscribers :
  Poller.setdefault callback subscribers <> [].
Proof.
  unfold Poller.setdefault. destruct subscribers as [|item rest]; simpl; [discriminate|].
  destruct (bool_decide (item.1 = callback) || Poller.subscribed callback rest);
    [discriminate|]. discriminate.
Qed.

Lemma subscribed_setdefault callback subscribers :
  Poller.subscribed callback (Poller.setdefault callback subscribers) = true.
Proof.
  unfold Poller.setdefault.
  destruct (Poller.subscribed callback subscribers) eqn:Hs; [exact Hs|].
  unfold Poller.subscribed. rewrite existsb_app. simpl.
  rewrite bool_decide_eq_true_2 by reflexivity. apply orb_true_r.
Qed.

(** X19.  [subscribe] never calls [fetch]: after [setdefault] the dictionary
    of subscribers is not empty, so the right operand of [or] is not
    evaluated.  Subscribing again changes nothing (pending data are kept),
    and a new subscriber starts with an empty queue. *)
Theorem subscribe_never_fetches {F} (fetch : F -> Data * F) callback subscribers (f : F) :
  Poller.subscribe fetch callback subscribers f = (Poller.setdefault callback subscribers, f)
  /\ Poller.subscribe fetch callback (Poller.setdefault callback subscribers) f
     = (Poller.setdefault callback subscribers, f)
  /\ (Poller.subscribed callback subscribers = true ->
      Poller.setdefault callback subscribers = subscribers)
  /\ (Poller.subscribed callback subscribers = false ->
      Poller.has_data callback (Poller.setdefault callback subscribers) = false).
Proof.
  assert (Hsub : forall subs,
             Poller.subscribe fetch callback subs f = (Poller.setdefault callback subs, f)).
  { intros subs. unfold Poller.subscribe.
    pose proof (setdefault_nonempty callback subs) as Hne.
    destruct (Poller.setdefault callback subs); [contradiction|reflexivity]. }
  split; [apply Hsub|]. split; [|split].
  - rewrite Hsub. f_equal. unfold Poller.setdefault at 1.
    rewrite subscribed_setdefault. reflexivity.
  - intros Hs. unfold Poller.setdefault. rewrite Hs. reflexivity.
  - intros Hs. unfold Poller.setdefault. rewrite Hs. unfold Poller.has_data.
    unfold Poller.subscribed in Hs.
    induction subscribers as [|item rest IH]; simpl in *.
    + rewrite bool_decide_eq_true_2 by reflexivity. reflexivity.
    + apply orb_false_elim in Hs as [Hitem Hrest]. rewrite Hitem. exact (IH Hrest).
Qed.

Lemma emit_deliveries subscribers :
  (Poller.emit subscribers).1
  = flat_map (fun item : Callback * list Data => Poller.drain item.1 item.2) subscribers
  /\ (Poller.emit subscribers).2 = map (fun item : Callback * list Data => (item.1, [])) subscribers.
Proof.
  induction subscribers as [|[callback queue] rest [IH1 IH2]]; simpl; [auto|].
  destruct (Poller.emit rest) as [deliveries rest']. simpl in *. subst. auto.
Qed.

Lemma drain_app (callback : Callback) (q1 q2 : list Data) :
  Poller.drain callback (q1 ++ q2) = Poller.drain callback q1 ++ Poller.drain callback q2.
Proof. induction q1 as [|d q1 IH]; simpl; [reflexivity|]. rewrite IH. reflexivity. Qed.

(** X20.  After [emit] no subscriber has data and a second [emit] delivers
    nothing.  The queues are not bounded: two [set_data] calls before an
    [emit] reach every subscriber, in the order of the calls, and nothing
    is dropped. *)
Theorem emit_drains_every_queue subscribers :
  (forall callback, Poller.has_data callback (Poller.emit subscribers).2 = false)
  /\ Poller.emit (Poller.emit subscribers).2 = ([], (Poller.emit subscribers).2)
  /\ (forall d1 d2,
         Forall (fun item : Callback * list Data => item.2 = []) subscribers ->
         (Poller.emit (Poller.set_data d2 (Poller.set_data d1 subscribers))).1
         = flat_map (fun item : Callback * list Data => [(item.1, d1); (item.1, d2)]) subscribers).
Proof.
  destruct (emit_deliveries subscribers) as [_ Hleft]. rewrite Hleft. clear Hleft.
  split; [|split].
  - intros callback. unfold Poller.has_data.
    induction subscribers as [|item rest IH]; simpl; [reflexivity|].
    destruct (bool_decide (item.1 = callback)); [reflexivity|exact IH].
  - induction subscribers as [|item rest IH]; simpl; [reflexivity|].
    rewrite IH. reflexivity.
  - intros d1 d2 Hempty.
    destruct (emit_deliveries (Poller.set_data d2 (Poller.set_data d1 subscribers)))
      as [-> _].
    unfold Poller.set_data.
    induction Hempty as [|[callback queue] rest Hitem _ IH]; simpl in *; [reflexivity|].
    subst queue. simpl. do 2 f_equal. exact IH.
Qed.

Lemma drain_other (callback other : Callback) (queue : list Data) :
  other <> callback ->
  List.filter (fun delivery : Callback * Data => negb (bool_decide (delivery.1 = callback)))
    (Poller.drain other queue)
  = Poller.drain other queue.
Proof.
  intros Hne. induction queue as [|d queue IH]; simpl; [reflexivity|].
  rewrite bool_decide_eq_false_2 by exact Hne. simpl. rewrite IH. reflexivity.
Qed.

Lemma drain_same (callback : Callback) (queue : list Data) :
  List.filter (fun delivery : Callback * Data => negb (bool_decide (delivery.1 = callback)))
    (Poller.drain callback queue)
  = [].
Proof.
  induction queue as [|d queue IH]; simpl; [reflexivity|].
  rewrite bool_decide_eq_true_2 by reflexivity. exact IH.
Qed.

(** X21.  After [unsubscribe] the callback is no subscriber and has no
    data; a later [set_data] and [emit] deliver to the other subscribers
    what they would have received, and nothing to it.  Unsubscribing a
    callback that is not subscribed changes nothing. *)
Theorem unsubscribe_stops_deliveries callback subscribers :
  Poller.subscribed callback (Poller.unsubscribe callback subscribers) = false
  /\ Poller.has_data callback (Poller.unsubscribe callback subscribers) = false
  /\ (forall data,
         (Poller.emit (Poller.set_data data (Poller.unsubscribe callback subscribers))).1
         = List.filter (fun delivery : Callback * Data => negb (bool_decide (delivery.1 = callback)))
             (Poller.emit (Poller.set_data data subscribers)).1)
  /\ (Poller.subscribed callback subscribers = false ->
      Poller.unsubscribe callback subscribers = subscribers).
Proof.
  split; [|split; [|split]].
  - unfold Poller.subscribed, Poller.unsubscribe.
    induction subscribers as [|item rest IH]; simpl; [reflexivity|].
    destruct (bool_decide (item.1 = callback)) eqn:Hitem; simpl; [exact IH|].
    rewrite Hitem. exact IH.
  - unfold Poller.has_data, Poller.unsubscribe.
    induction subscribers as [|item rest IH]; simpl; [reflexivity|].
    destruct (bool_decide (item.1 = callback)) eqn:Hitem; simpl; [exact IH|].
    rewrite Hitem. exact IH.
  - intros data.
    destruct (emit_deliveries (Poller.set_data data (Poller.unsubscribe callback subscribers)))
      as [-> _].
    destruct (emit_deliveries (Poller.set_data data subscribers)) as [-> _].
    unfold Poller.set_data, Poller.unsubscribe.
    induction subscribers as [|item rest IH]; simpl; [reflexivity|].
    rewrite List.filter_app.
    destruct (bool_decide (item.1 = callback)) eqn:Hitem; simpl.
    + apply bool_decide_eq_true_1 in Hitem. rewrite Hitem, drain_same. exact IH.
    + apply bool_decide_eq_false_1 in Hitem. rewrite drain_other by exact Hitem.
      rewrite IH. reflexivity.
  - unfold Poller.subscribed, Poller.unsubscribe.
    induction subscribers as [|item rest IH]; simpl; [reflexivity|].
    intros Hs. apply orb_false_elim in Hs as [Hitem Hrest].
    rewrite Hitem. simpl. rewrite (IH Hrest). reflexivity.
Qed.
End PollerFacts.

Lemma initialize_logger_cases (log_level log_type log_file : string)
  (file_error : option (string * string)) :
  let console := String.eqb log_type "CONSOLE" || String.eqb log_type "BOTH" in
  match initialize_logger log_level log_type log_file file_error with
  | UnboundLocalError variable =>
      (variable = "fmt" /\ console = true /\ known_level log_level = false)
      \/ (variable = "formatter" /\ console = false /\ String.eqb log_type "FILE" = true
          /\ file_error = None)
  | Initialized _ =>
      (console = false \/ known_level log_level = true)
      /\ (console = true \/ String.eqb log_type "FILE" = false \/ file_error <> None)
  end.
Proof.
  unfold initialize_logger, known_level.
  destruct (String.eqb log_level "DEBUG"), (String.eqb log_level "VERBOSE"),
    (String.eqb log_level "NOTICE"), (String.eqb log_level "INFO"),
    (String.eqb log_type "CONSOLE"), (String.eqb log_type "BOTH"),
    (String.eqb log_type "FILE"), file_error as [e|];
    cbn; intuition (auto; discriminate).
Qed.

(** X22.  [initialize_logger] fails on an unassigned local variable in two
    cases: on [fmt] exactly when a console handler is asked for ([CONSOLE]
    or [BOTH]) and the level is none of [DEBUG], [VERBOSE], [NOTICE],
    [INFO]; on [formatter] exactly when the log type is [FILE] and the log
    file can be opened, since [formatter] is assigned in the console branch
    only. *)
Theorem initialize_logger_unbound_locals (log_level log_type log_file : string)
  (file_error : option (string * string)) :
  (initialize_logger log_level log_type log_file file_error = UnboundLocalError "fmt"
   <-> (log_type = "CONSOLE" \/ log_type = "BOTH") /\ known_level log_level = false)
  /\ (initialize_logger log_level log_type log_file file_error
      = UnboundLocalError "formatter"
      <-> log_type = "FILE" /\ file_error = None).
Proof.
  pose proof (initialize_logger_cases log_level log_type log_file file_error) as Hcases.
  cbv zeta in Hcases.
  assert (Hconsole : String.eqb log_type "CONSOLE" || String.eqb log_type "BOTH" = true
                     <-> log_type = "CONSOLE" \/ log_type = "BOTH").
  { rewrite orb_true_iff, !String.eqb_eq. reflexivity. }
  split; split.
  - intros Hrun. rewrite Hrun in Hcases.
    destruct Hcases as [(_ & Hc & Hk)|(Hv & _)]; [|discriminate].
    split; [apply Hconsole; exact Hc|exact Hk].
  - intros [Htype Hk]. apply Hconsole in Htype.
    destruct (initialize_logger log_level log_type log_file file_error) as [logger|variable].
    + destruct Hcases as [[Hc|Hc] _]; congruence.
    + destruct Hcases as [(-> & _)|(_ & Hc & _)]; [reflexivity|congruence].
  - intros Hrun. rewrite Hrun in Hcases.
    destruct Hcases as [(Hv & _)|(_ & _ & Hf & Hfile)]; [discriminate|].
    split; [apply String.eqb_eq; exact Hf|exact Hfile].
  - intros [-> ->].
    destruct (initialize_logger log_level "FILE" log_file None) as [logger|variable].
    + destruct Hcases as [_ [Hc|[Hf|Hfile]]]; [discriminate|discriminate|contradiction].
    + destruct Hcases as [(_ & Hc & _)|(-> & _)]; [discriminate|reflexivity].
Qed.

(** * The pattern of host rules *)

Local Arguments String.append : simpl nomatch.

Lemma append_assoc (a b c : string) : (a +:+ b) +:+ c = a +:+ (b +:+ c).
Proof. induction a as [|x a IH]; simpl; [reflexivity|]. rewrite IH. reflexivity. Qed.

Lemma prefix_append (p r : string) : String.prefix p (p +:+ r) = true.
Proof.
  induction p as [|a p IH]; simpl; [destruct r; reflexivity|].
  destruct (ascii_dec a a) as [_|Hne]; [exact IH|contradiction].
Qed.

Lemma prefix_split (p s : string) :
  String.prefix p s = true -> exists r, s = p +:+ r.
Proof.
  revert s. induction p as [|a p IH]; intros s Hp.
  - exists s. reflexivity.
  - destruct s as [|b s]; [discriminate|]. simpl in Hp.
    destruct (ascii_dec a b) as [->|_]; [|discriminate].
    destruct (IH s Hp) as (r & ->). exists r. reflexivity.
Qed.

Lemma str_in_prefix (sub s : string) : String.prefix sub s = true -> Py.str_in sub s = true.
Proof. intros Hp. destruct s; cbn [Py.str_in]; rewrite Hp; reflexivity. Qed.

Lemma str_in_cons (sub : string) c s : Py.str_in sub s = true -> Py.str_in sub (String c s) = true.
Proof. intros Hin. cbn [Py.str_in]. rewrite Hin. apply orb_true_r. Qed.

Lemma strip_prefix_split (p s r : string) : Py.strip_prefix p s = Some r -> s = p +:+ r.
Proof.
  revert s. induction p as [|a p IH]; intros s Hs; simpl in Hs.
  - injection Hs as ->. reflexivity.
  - destruct s as [|b s]; [discriminate|].
    destruct (Ascii.eqb a b) eqn:Hab; [|discriminate].
    apply Ascii.eqb_eq in Hab as ->. rewrite (IH s Hs). reflexivity.
Qed.

Lemma strip_prefix_append (p r : string) : Py.strip_prefix p (p +:+ r) = Some r.
Proof.
  induction p as [|a p IH]; simpl; [reflexivity|]. rewrite Ascii.eqb_refl. exact IH.
Qed.

Lemma str_in_char (a c : ascii) (s : string) :
  Py.str_in (String a EmptyString) (String c s)
  = Ascii.eqb a c || Py.str_in (String a EmptyString) s.
Proof.
  cbn [Py.str_in String.prefix].
  destruct (ascii_dec a c) as [->|Hne].
  - rewrite Ascii.eqb_refl. destruct s; reflexivity.
  - apply Ascii.eqb_neq in Hne. rewrite Hne. reflexivity.
Qed.

Lemma span_split (a : ascii) (s run rest : string) :
  Py.span (fun c => negb (Ascii.eqb c a)) s = (run, rest) ->
  s = run +:+ rest /\ lacks a run.
Proof.
  revert run rest. induction s as [|c s IH]; intros run rest Hs; simpl in Hs.
  - injection Hs as <- <-. split; reflexivity.
  - destruct (Ascii.eqb c a) eqn:Hc; simpl in Hs.
    + injection Hs as <- <-. split; reflexivity.
    + destruct (Py.span (fun c => negb (Ascii.eqb c a)) s) as [run' rest'].
      injection Hs as <- <-. destruct (IH run' rest' eq_refl) as [-> Hlacks].
      split; [reflexivity|].
      unfold lacks in *. rewrite str_in_char, Hlacks, Ascii.eqb_sym, Hc. reflexivity.
Qed.

Lemma span_append (a : ascii) (run rest : string) :
  lacks a run ->
  Py.span (fun c => negb (Ascii.eqb c a)) (run +:+ String a rest) = (run, String a rest).
Proof.
  unfold lacks. induction run as [|c run IH]; intros Hlacks.
  - simpl. rewrite Ascii.eqb_refl. reflexivity.
  - rewrite str_in_char in Hlacks. apply orb_false_elim in Hlacks as [Hc Hrun].
    simpl. rewrite Ascii.eqb_sym, Hc. simpl.
    rewrite (IH Hrun). reflexivity.
Qed.

(** What a match at the start of [s] says about [s]. *)
Lemma match_host_here_split (s capture : string) (len : nat) :
  Py.match_host_here s = Some (capture, len) ->
  capture <> EmptyString
  /\ lacks Py.backquote capture
  /\ len = (8 + String.length capture)%nat
  /\ exists rest, s = host_matcher capture +:+ rest.
Proof.
  unfold Py.match_host_here.
  destruct (Py.strip_prefix "Host(`" s) as [s1|] eqn:Hstrip; [|discriminate].
  apply strip_prefix_split in Hstrip as ->.
  destruct (Py.span (fun c => negb (Ascii.eqb c Py.backquote)) s1) as [run rest] eqn:Hspan.
  apply span_split in Hspan as [-> Hlacks].
  destruct run as [|c run]; [discriminate|].
  destruct (String.prefix "`)" rest) eqn:Hclose; [|discriminate].
  intros [= <- <-]. apply prefix_split in Hclose as (rest' & ->).
  split; [discriminate|]. split; [exact Hlacks|]. split; [simpl; lia|].
  exists rest'. unfold host_matcher.
  rewrite !append_assoc. reflexivity.
Qed.

Lemma findall_host_from_sound (c : string) :
  forall (s : string) (skip : nat),
    In c (Py.findall_host_from skip s) ->
    c <> EmptyString /\ lacks Py.backquote c /\ Py.str_in (host_matcher c) s = true.
Proof.
  induction s as [|a s IH]; intros skip Hin; [destruct Hin|].
  cbn [Py.findall_host_from] in Hin.
  assert (Htail : forall k, In c (Py.findall_host_from k s) ->
                            c <> EmptyString /\ lacks Py.backquote c
                            /\ Py.str_in (host_matcher c) (String a s) = true).
  { intros k Hk. destruct (IH k Hk) as (Hne & Hl & Hs).
    split; [exact Hne|]. split; [exact Hl|]. apply str_in_cons. exact Hs. }
  destruct skip as [|k]; [|exact (Htail k Hin)].
  destruct (Py.match_host_here (String a s)) as [[capture len]|] eqn:Hmatch;
    [|exact (Htail _ Hin)].
  destruct Hin as [<-|Hin]; [|exact (Htail _ Hin)].
  destruct (match_host_here_split _ _ _ Hmatch) as (Hne & Hl & _ & rest & Hs).
  split; [exact Hne|]. split; [exact Hl|].
  apply str_in_prefix. rewrite Hs. apply prefix_append.
Qed.

(** X12.  Every hostname that [findall_host] extracts is non-empty, free of
    backquotes, and occurs in the value between [Host(`] and [`)]. *)
Theorem findall_host_sound (value c : string) (Hin : In c (Py.findall_host value)) :
  c <> EmptyString /\ lacks Py.backquote c /\ Py.str_in (host_matcher c) value = true.
Proof. exact (findall_host_from_sound c value O Hin). Qed.

Lemma str_in_tail (sub : string) a s :
  Py.str_in sub (String a s) = false ->
  String.prefix sub (String a s) = false /\ Py.str_in sub s = false.
Proof. cbn [Py.str_in]. intros Hin. apply orb_false_elim in Hin. exact Hin. Qed.

Lemma match_host_here_needs_host (s : string) :
  String.prefix "Host" s = false -> Py.match_host_here s = None.
Proof.
  intros Hp. destruct (Py.match_host_here s) as [[capture len]|] eqn:Hmatch; [|reflexivity].
  destruct (match_host_here_split _ _ _ Hmatch) as (_ & _ & _ & rest & ->).
  unfold host_matcher in Hp.
  change ("Host(`" +:+ capture +:+ "`)") with ("Host" +:+ ("(`" +:+ capture +:+ "`)")) in Hp.
  rewrite append_assoc, prefix_append in Hp. discriminate.
Qed.

Lemma findall_host_lacking (value : string) :
  Py.str_in "Host" value = false -> Py.findall_host value = [].
Proof.
  intros Hlacks. unfold Py.findall_host. generalize O as skip.
  induction value as [|a s IH]; intros skip; [reflexivity|].
  apply str_in_tail in Hlacks as [Hp Hs].
  cbn [Py.findall_host_from]. destruct skip as [|k]; [|exact (IH Hs k)].
  rewrite (match_host_here_needs_host _ Hp). exact (IH Hs O).
Qed.

(** X13.  A value in which [Host] does not occur yields no hostname. *)
Theorem findall_host_without_host (value : string)
  (Hlacks : Py.str_in "Host" value = false) :
  Py.findall_host value = [].
Proof. exact (findall_host_lacking value Hlacks). Qed.

Lemma findall_host_from_skip (s1 s2 : string) :
  Py.findall_host_from (String.length s1) (s1 +:+ s2) = Py.findall_host s2.
Proof.
  induction s1 as [|a s1 IH]; simpl.
  - unfold Py.findall_host. reflexivity.
  - exact IH.
Qed.

Lemma match_host_here_matcher (h rest : string) :
  h <> EmptyString -> lacks Py.backquote h ->
  Py.match_host_here (host_matcher h +:+ rest) = Some (h, (8 + String.length h)%nat).
Proof.
  intros Hne Hl. unfold Py.match_host_here, host_matcher.
  rewrite append_assoc, strip_prefix_append, append_assoc.
  change ("`)" +:+ rest) with (String Py.backquote (")" +:+ rest)).
  rewrite (span_append Py.backquote h _ Hl).
  destruct h as [|c h]; [contradiction|].
  change (String Py.backquote (")" +:+ rest)) with ("`)" +:+ rest).
  rewrite prefix_append. do 2 f_equal. lia.
Qed.

Lemma length_append (a b : string) :
  String.length (a +:+ b) = (String.length a + String.length b)%nat.
Proof. induction a as [|x a IH]; simpl; [reflexivity|]. rewrite IH. reflexivity. Qed.

Lemma prefix_head_differs (a c : ascii) (p s : string) :
  Ascii.eqb a c = false -> String.prefix (String a p) (String c s) = false.
Proof.
  intros Hne. cbn [String.prefix].
  destruct (ascii_dec a c) as [->|_]; [|reflexivity].
  rewrite Ascii.eqb_refl in Hne. discriminate.
Qed.

(** X14.  [findall_host] scans from the left: a host matcher at the start
    of the value gives its hostname and the scan resumes after it; a prefix
    without the letter [H] is skipped. *)
Theorem findall_host_compose :
  (forall h rest, h <> EmptyString -> lacks Py.backquote h ->
                  Py.findall_host (host_matcher h +:+ rest) = h :: Py.findall_host rest)
  /\ (forall pre s, lacks "H"%char pre -> Py.findall_host (pre +:+ s) = Py.findall_host s).
Proof.
  split.
  - intros h rest Hne Hl.
    pose proof (match_host_here_matcher h rest Hne Hl) as Hmatch.
    unfold Py.findall_host at 1.
    remember (host_matcher h +:+ rest) as s eqn:Hs.
    destruct s as [|a s'].
    { unfold host_matcher in Hs. discriminate. }
    cbn [Py.findall_host_from]. rewrite Hmatch. f_equal.
    unfold host_matcher in Hs. rewrite append_assoc in Hs. simpl in Hs.
    injection Hs as _ ->.
    replace (Nat.pred (8 + String.length h)) with (String.length ("ost(`" +:+ h +:+ "`)")).
    + rewrite <- findall_host_from_skip with (s1 := "ost(`" +:+ h +:+ "`)").
      rewrite !append_assoc. reflexivity.
    + rewrite !length_append. simpl. lia.
  - intros pre s. unfold lacks. induction pre as [|c pre IH]; intros Hl; [reflexivity|].
    rewrite str_in_char in Hl. apply orb_false_elim in Hl as [Hc Hpre].
    unfold Py.findall_host in *. cbn [String.append Py.findall_host_from].
    rewrite match_host_here_needs_host; [exact (IH Hpre)|].
    apply prefix_head_differs. exact Hc.
Qed.

(** * Router validation, mappings and settings *)

Section TraefikMore.
Context {W : Type}.
Variables included_hosts excluded_hosts : list Py.Pattern.

Lemma is_valid_host_run host (w : W) :
  outcome (_is_valid_host included_hosts excluded_hosts host w)
  = Ret (host_allowed included_hosts excluded_hosts host)
  /\ world (_is_valid_host included_hosts excluded_hosts host w) = w
  /\ calls (trace (_is_valid_host included_hosts excluded_hosts host w)) = [].
Proof.
  unfold _is_valid_host, host_allowed.
  destruct (existsb (fun pattern : Py.Pattern => pattern host) included_hosts); simpl; [|auto].
  destruct (existsb (fun pattern : Py.Pattern => pattern host) excluded_hosts); simpl; auto.
Qed.

Lemma validate_hosts_run route_name route_hosts_found :
  forall data (w : W),
    outcome (validate_hosts included_hosts excluded_hosts route_name route_hosts_found data w)
    = Ret (data ++ List.filter (host_allowed included_hosts excluded_hosts) route_hosts_found)
    /\ world (validate_hosts included_hosts excluded_hosts route_name route_hosts_found data w)
       = w
    /\ calls (trace (validate_hosts included_hosts excluded_hosts route_name
                       route_hosts_found data w)) = [].
Proof.
  induction route_hosts_found as [|host rest IH]; intros data w; simpl.
  - rewrite app_nil_r. auto.
  - destruct (is_valid_host_run host w) as (Hout & Hw & Hc).
    rewrite bind_run, Hout, Hw.
    destruct (host_allowed included_hosts excluded_hosts host).
    + rewrite bind_run. cbn [log outcome world trace].
      destruct (IH (data ++ [host]) w) as (Hout' & Hw' & Hc').
      rewrite Hout', Hw', !calls_app, Hc, Hc', <- app_assoc. simpl. auto.
    + destruct (IH data w) as (Hout' & Hw' & Hc').
      cbn [outcome world trace].
      rewrite Hout', Hw', calls_app, Hc, Hc'. auto.
Qed.

Lemma is_valid_route_run (route : Route) (w : W) :
  outcome (_is_valid_route route w)
  = Ret (bool_decide (is_Some (route !! "status"))
         && bool_decide (is_Some (route !! "name"))
         && bool_decide (is_Some (route !! "rule"))
         && String.eqb (getitem route "status") "enabled")
  /\ world (_is_valid_route route w) = w
  /\ calls (trace (_is_valid_route route w)) = [].
Proof.
  unfold _is_valid_route. simpl.
  destruct (bool_decide (is_Some (route !! "status"))); simpl; [|auto].
  destruct (bool_decide (is_Some (route !! "name"))); simpl; [|auto].
  destruct (bool_decide (is_Some (route !! "rule"))); simpl; [|auto].
  destruct (String.eqb (getitem route "status") "enabled"); simpl; [|auto].
  rewrite bind_run.
  destruct (Py.str_in "Host" (getitem route "rule")); simpl; auto.
Qed.

Lemma validate_routes_run raw_data :
  forall data (w : W),
    outcome (validate_routes included_hosts excluded_hosts raw_data data w)
    = Ret (data ++ flat_map (route_hosts included_hosts excluded_hosts) raw_data)
    /\ world (validate_routes included_hosts excluded_hosts raw_data data w) = w
    /\ calls (trace (validate_routes included_hosts excluded_hosts raw_data data w)) = [].
Proof.
  induction raw_data as [|route rest IH]; intros data w; simpl.
  - rewrite app_nil_r. auto.
  - destruct (is_valid_route_run route w) as (Hout & Hw & Hc).
    rewrite bind_run, Hout, Hw. unfold route_hosts.
    destruct (bool_decide (is_Some (route !! "status"))
              && bool_decide (is_Some (route !! "name"))
              && bool_decide (is_Some (route !! "rule"))
              && String.eqb (getitem route "status") "enabled").
    + rewrite bind_run. cbn [log outcome world trace]. rewrite bind_run.
      destruct (validate_hosts_run (getitem route "name")
                  (Py.findall_host (getitem route "rule")) data w) as (Hout1 & Hw1 & Hc1).
      rewrite Hout1, Hw1. cbn [outcome world trace].
      destruct (IH (data ++ List.filter (host_allowed included_hosts excluded_hosts)
                              (Py.findall_host (getitem route "rule"))) w)
        as (Hout2 & Hw2 & Hc2).
      rewrite Hout2, Hw2, !calls_app, Hc, Hc1, Hc2, <- app_assoc. simpl. auto.
    + destruct (IH data w) as (Hout2 & Hw2 & Hc2). cbn [outcome world trace].
      rewrite Hout2, Hw2, calls_app, Hc, Hc2. auto.
Qed.

(** X15.  [_validate] never raises and leaves its state alone; the
    hostnames it returns are, router by router and in order, the [Host]
    captures of the rules of the enabled routers that have the three keys,
    restricted to the hosts that match an include pattern and no exclude
    pattern.  A router whose rule lacks [Host] contributes nothing, whatever
    [_is_valid_route] answers for it. *)
Theorem validate_emits_route_hosts (raw_data : list Route) (w : W) :
  outcome (_validate included_hosts excluded_hosts raw_data w)
  = Ret (flat_map (route_hosts included_hosts excluded_hosts) raw_data, TRAEFIK)
  /\ world (_validate included_hosts excluded_hosts raw_data w) = w
  /\ (forall route,
         Py.str_in "Host" (getitem route "rule") = false ->
         route_hosts included_hosts excluded_hosts route = []).
Proof.
  unfold _validate. rewrite bind_run.
  destruct (validate_routes_run raw_data [] w) as (Hout & Hw & _).
  rewrite Hout, Hw. cbn [outcome world trace ret app].
  split; [reflexivity|]. split; [reflexivity|].
  intros route Hlacks. unfold route_hosts.
  rewrite (findall_host_lacking _ Hlacks). destruct (_ && _); reflexivity.
Qed.
End TraefikMore.

(** X16.  With no include pattern configured, [update_traefik_domains]
    adds the pattern that matches everything, so [_is_valid_host] accepts
    exactly the hosts that match no exclude pattern; a configured list is
    left as it is. *)
Theorem empty_include_list_accepts_all {W} (excluded_hosts : list Py.Pattern) (host : string)
  (w : W) :
  outcome (_is_valid_host (update_traefik_domains []) excluded_hosts host w)
  = Ret (negb (existsb (fun pattern : Py.Pattern => pattern host) excluded_hosts))
  /\ (forall pattern included_hosts,
         update_traefik_domains (pattern :: included_hosts) = pattern :: included_hosts).
Proof.
  split; [|reflexivity].
  destruct (is_valid_host_run (update_traefik_domains []) excluded_hosts host w) as (-> & _).
  reflexivity.
Qed.

(** * [add_to_mappings] *)

Lemma add_to_mapping_lookup current k v k0 :
  add_to_mapping current (k, v) !! k0
  = if decide (k = k0)
    then if needs_sync (current !! k0) v then Some v else current !! k0
    else current !! k0.
Proof.
  unfold add_to_mapping. simpl.
  destruct (decide (k = k0)) as [->|Hne].
  - destruct (needs_sync (current !! k0) v); [apply lookup_insert_eq|reflexivity].
  - destruct (needs_sync (current !! k) v); [apply lookup_insert_ne; exact Hne|reflexivity].
Qed.

(** The rank of [k0] after the merge is the least of the rank it had and the
    ranks the new items give it. *)
Lemma add_to_mappings_lookup mappings :
  forall current k0,
    match add_to_mappings current mappings !! k0 with
    | Some rank =>
        (current !! k0 = Some rank \/ In (k0, rank) mappings)
        /\ (forall c, current !! k0 = Some c -> rank <= c)
        /\ (forall v, In (k0, v) mappings -> rank <= v)
    | None => current !! k0 = None /\ forall v, ~ In (k0, v) mappings
    end.
Proof.
  induction mappings as [|[k v] rest IH]; intros current k0; simpl.
  - destruct (current !! k0) as [rank|]; [|auto].
    split; [auto|]. split; [intros c [= ->]; lia|intros v []].
  - specialize (IH (add_to_mapping current (k, v)) k0).
    rewrite add_to_mapping_lookup in IH.
    destruct (add_to_mappings (add_to_mapping current (k, v)) rest !! k0) as [rank|].
    + destruct IH as (Hfrom & Hcur & Hnew).
      destruct (decide (k = k0)) as [->|Hne].
      * destruct (current !! k0) as [c|] eqn:Hc; simpl in *.
        -- destruct (c >? v) eqn:Hgt.
           ++ apply Z.gtb_gt in Hgt. specialize (Hcur v eq_refl).
              split; [destruct Hfrom as [[= ->]|Hin]; auto|].
              split; [intros c' [= <-]; lia|].
              intros v' [[= <-]|Hin]; [lia|auto].
           ++ rewrite Z.gtb_ltb in Hgt. apply Z.ltb_ge in Hgt. specialize (Hcur c eq_refl).
              split; [destruct Hfrom as [Heq|Hin]; auto|].
              split; [intros c' [= <-]; lia|].
              intros v' [[= <-]|Hin]; [lia|auto].
        -- specialize (Hcur v eq_refl).
           split; [destruct Hfrom as [[= ->]|Hin]; auto|].
           split; [discriminate|].
           intros v' [[= <-]|Hin]; [lia|auto].
      * split; [destruct Hfrom as [Heq|Hin]; auto|].
        split; [exact Hcur|].
        intros v' [[= Hk _]|Hin]; [contradiction|auto].
    + destruct IH as (Hnone & Hnot).
      destruct (decide (k = k0)) as [->|Hne].
      * destruct (needs_sync (current !! k0) v) eqn:Hn; [discriminate|].
        rewrite Hnone in Hn. discriminate.
      * split; [exact Hnone|]. intros v' [[= Hk _]|Hin]; [contradiction|exact (Hnot v' Hin)].
Qed.

Lemma add_to_mappings_settled mappings :
  forall current,
    (forall k v, In (k, v) mappings -> needs_sync (current !! k) v = false) ->
    add_to_mappings current mappings = current.
Proof.
  induction mappings as [|[k v] rest IH]; intros current Hsettled; simpl; [reflexivity|].
  assert (Hstep : add_to_mapping current (k, v) = current).
  { unfold add_to_mapping. simpl. rewrite (Hsettled k v) by (left; reflexivity).
    reflexivity. }
  change (add_to_mappings (add_to_mapping current (k, v)) rest = current).
  rewrite Hstep. apply IH. intros k' v' Hin. apply Hsettled. right. exact Hin.
Qed.

(** X9.  After [add_to_mappings] the rank of a hostname is the lowest of
    the rank it had and the ranks the new items give it; a hostname absent
    afterwards was absent before and is in no new item. *)
Theorem add_to_mappings_keeps_lowest_rank (current : gmap string Z)
  (mappings : list (string * Z)) (k : string) :
  match add_to_mappings current mappings !! k with
  | Some rank =>
      (current !! k = Some rank \/ In (k, rank) mappings)
      /\ (forall c, current !! k = Some c -> rank <= c)
      /\ (forall v, In (k, v) mappings -> rank <= v)
  | None => current !! k = None /\ forall v, ~ In (k, v) mappings
  end.
Proof. apply add_to_mappings_lookup. Qed.

(** X10.  Merging the same items twice with [add_to_mappings] gives what
    merging them once gives. *)
Theorem add_to_mappings_idempotent (current : gmap string Z) (mappings : list (string * Z)) :
  add_to_mappings (add_to_mappings current mappings) mappings
  = add_to_mappings current mappings.
Proof.
  apply add_to_mappings_settled. intros k v Hin.
  pose proof (add_to_mappings_lookup mappings current k) as Hlook.
  destruct (add_to_mappings current mappings !! k) as [rank|].
  - destruct Hlook as (_ & _ & Hle). specialize (Hle v Hin).
    simpl. rewrite Z.gtb_ltb. apply Z.ltb_ge. exact Hle.
  - destruct Hlook as [_ Hnot]. destruct (Hnot v Hin).
Qed.

(** X11.  When every reconciliation succeeds, [sync_mappings] ends normally
    and leaves in [synced_mappings] what [add_to_mappings] computes from
    the same dictionary and items. *)
Theorem sync_mappings_records_like_add_to_mappings {E}
  (point_domain : string -> E -> Outcome bool * E)
  (Hsuccess : forall k e, (point_domain k e).1 = Ret true)
  (mappings : list (string * Z)) (w : SyncWorld.t E) :
  outcome (sync_mappings point_domain mappings w) = Ret tt
  /\ synced (world (sync_mappings point_domain mappings w))
     = add_to_mappings (synced w) mappings.
Proof.
  revert w. induction mappings as [|[k v] rest IH]; intros w.
  - split; reflexivity.
  - rewrite sync_mappings_cons, bind_run.
    assert (Hstep : outcome (sync_mapping point_domain k v w) = Ret tt
                    /\ synced (world (sync_mapping point_domain k v w))
                       = add_to_mapping (synced w) (k, v)).
    { unfold sync_mapping, add_to_mapping. simpl.
      destruct (needs_sync (synced w !! k) v); [|split; reflexivity].
      rewrite bind_run. unfold call_point_domain.
      specialize (Hsuccess k (SyncWorld.provider w)).
      destruct (point_domain k (SyncWorld.provider w)) as [res e]. simpl in Hsuccess.
      subst res. split; reflexivity. }
    destruct Hstep as [Hout Hw]. rewrite Hout. cbn [outcome world trace].
    destruct (IH (world (sync_mapping point_domain k v w))) as [Hout' Hw'].
    rewrite Hout', Hw', Hw. split; reflexivity.
Qed.

(** * [DockerContainer.hosts] *)

(** X17.  [hosts] returns the [Host] captures of one label only, the first
    in label order whose key does not match the router-rule pattern and
    whose value contains [Host]; it returns nothing when there is no such
    label.  It never raises and leaves its state alone. *)
Theorem hosts_first_other_label {W} (container : DockerContainer.t) (w : W) :
  outcome (hosts container w)
  = Ret match List.find hosts_label (DockerContainer.labels container) with
        | Some (_, value) => Py.findall_host value
        | None => []
        end
  /\ world (hosts container w) = w.
Proof.
  unfold hosts. generalize (DockerContainer.id container) as container_id.
  induction (DockerContainer.labels container) as [|[label value] rest IH];
    intros container_id; simpl.
  - split; reflexivity.
  - unfold hosts_label at 1 2. simpl.
    destruct (Py.re_match_traefik_rule label); simpl.
    + unfold bind. cbn [log outcome world trace app]. apply IH.
    + destruct (Py.str_in "Host" value); simpl.
      * split; reflexivity.
      * unfold bind. cbn [log outcome world trace app]. apply IH.
Qed.

(** * [Settings.update_domains] *)

(** X18.  The validator [update_domains] is idempotent; after it every zone
    has a [ttl] and a [target_domain]; it keeps a zone's own non-zero
    [ttl], and replaces a [ttl] of [0] by [default_ttl], since [or] takes
    [0] for unset. *)
Theorem update_domains_idempotent (settings : Settings.t) :
  Settings.update_domains (Settings.update_domains settings)
  = Settings.update_domains settings
  /\ (forall dom, In dom (Settings.domains (Settings.update_domains settings)) ->
                  is_Some (DomainsModel.ttl dom) /\ is_Some (DomainsModel.target_domain dom))
  /\ (forall dom ttl, DomainsModel.ttl dom = Some ttl -> ttl <> 0 ->
                      DomainsModel.ttl (Settings.update_domain settings dom) = Some ttl)
  /\ (forall dom, DomainsModel.ttl dom = Some 0 ->
                  DomainsModel.ttl (Settings.update_domain settings dom)
                  = Some (Settings.default_ttl settings)).
Proof.
  split; [|split; [|split]].
  - unfold Settings.update_domains. simpl. f_equal.
    rewrite map_map. apply map_ext. intros dom.
    unfold Settings.update_domain, Py.or_else. simpl.
    destruct dom as [n z p ttl target c ex]. simpl. f_equal.
    + destruct ttl as [[|q|q]|]; simpl; try reflexivity;
        destruct (Settings.default_ttl settings); reflexivity.
    + destruct target as [[|a t]|]; simpl; try reflexivity;
        destruct (Settings.target_domain settings); reflexivity.
  - simpl. intros dom Hin. apply in_map_iff in Hin as (raw & <- & _).
    unfold Settings.update_domain, Py.or_else. simpl. split.
    + destruct (DomainsModel.ttl raw) as [[|q|q]|]; simpl; eauto.
    + destruct (DomainsModel.target_domain raw) as [[|a t]|]; simpl; eauto.
  - intros dom ttl Httl Hnz. unfold Settings.update_domain, Py.or_else. simpl.
    rewrite Httl. destruct ttl; [contradiction|reflexivity|reflexivity].
  - intros dom Httl. unfold Settings.update_domain, Py.or_else. simpl.
    rewrite Httl. reflexivity.
Qed.

(** * Concrete runs for the further properties *)

(** Witness of X1: the excluded sub-domain scenario of the test suite. *)
Lemma update_zones_all_rejected_witness :
  outcome (update_zones (mock_zones true false) "sub.example.com" [excluded_domain_info]
             (Mock.returning []))
  = Ret true
  /\ world (update_zones (mock_zones true false) "sub.example.com" [excluded_domain_info]
              (Mock.returning []))
     = Mock.returning []
  /\ calls (trace (update_zones (mock_zones true false) "sub.example.com"
                     [excluded_domain_info] (Mock.returning [])))
     = [].
Proof.
  apply (@update_zones_all_rejected Mock.t Mock.client (mock_zones true false)
           "sub.example.com" [excluded_domain_info] (Mock.returning [])).
  constructor; [reflexivity|constructor].
Defined.

(** Witness of X6: one rate-limited read, then an internal error. *)
Lemma get_records_reraises_other_errors_witness :
  get_records (mock_zones true false) "zone_id" "new.example.com"
    (Mock.mk [inl rate_limited; inl internal_error] [] [] [])
  = mkResult (Raise (APIError internal_error)) (Mock.returning [])
      (backoff_trace "zone_id" "new.example.com" 1
       ++ [Called (GET "zone_id" "new.example.com")]).
Proof.
  refine (@get_records_reraises_other_errors Mock.t Mock.client (mock_zones true false)
            "zone_id" "new.example.com" 1
            (Mock.mk [inl rate_limited; inl internal_error] [] [] [])
            (Mock.mk [inl internal_error] [] [] []) (Mock.returning []) internal_error
            _ _ _ _).
  - reflexivity.
  - vm_compute. lia.
  - reflexivity.
  - reflexivity.
Defined.

(** Witness of X7: the provider rejects the POST of a new record. *)
Lemma update_zones_escaping_exceptions_witness :
  writes (trace (update_zones (mock_zones false false) "new.example.com" [mock_domain_info]
                   (Mock.mk [] [] [Some internal_error] [])))
  <> [].
Proof.
  exact (proj2 (@update_zones_escaping_exceptions Mock.t Mock.client (mock_zones false false)
                  "new.example.com" [mock_domain_info]
                  (Mock.mk [] [] [Some internal_error] [])
                  (AttributeError "type object 'CloudFlare' has no attribute 'exceptions'")
                  eq_refl)).
Defined.

(** Witness of X11: a reconciler that always succeeds. *)
Lemma sync_mappings_records_like_add_to_mappings_witness :
  synced (world (sync_mappings (fun (_ : string) (e : unit) => (Ret true, e))
                   [("a.example.com", 2); ("a.example.com", 1)] (SyncWorld.mk ∅ tt)))
  = add_to_mappings ∅ [("a.example.com", 2); ("a.example.com", 1)].
Proof.
  refine (proj2 (sync_mappings_records_like_add_to_mappings
                   (fun (_ : string) (e : unit) => (Ret true, e)) _
                   [("a.example.com", 2); ("a.example.com", 1)] (SyncWorld.mk ∅ tt))).
  intros k e. reflexivity.
Defined.

(** Witness of X12. *)
Lemma findall_host_sound_witness :
  "b.example.com" <> EmptyString
  /\ lacks Py.backquote "b.example.com"
  /\ Py.str_in (host_matcher "b.example.com")
       "Host(`a.example.com`) || Host(`b.example.com`)" = true.
Proof.
  apply (findall_host_sound "Host(`a.example.com`) || Host(`b.example.com`)"
           "b.example.com").
  vm_compute. auto.
Defined.

(** Witness of X13. *)
Lemma findall_host_without_host_witness : Py.findall_host "PathPrefix(`/api`)" = [].
Proof. apply (findall_host_without_host "PathPrefix(`/api`)"). reflexivity. Defined.

(** * The deprecated router poll *)

Section LegacyTraefik.
Variables included_hosts excluded_hosts : list Py.Pattern.

Lemma check_traefik_hosts_lookup found :
  forall (mappings : gmap string Z) h,
    foldl (check_traefik_host included_hosts excluded_hosts) mappings found !! h
    = if decide (h ∈ List.filter (host_allowed included_hosts excluded_hosts) found)
      then Some 2 else mappings !! h.
Proof.
  induction found as [|v rest IH]; intros mappings h; simpl.
  - destruct (decide (h ∈ [])) as [Hin|_]; [inversion Hin|reflexivity].
  - rewrite IH. unfold check_traefik_host, host_allowed, is_matching.
    destruct (existsb (fun pattern : Py.Pattern => pattern v) included_hosts); simpl;
      [|reflexivity].
    destruct (existsb (fun pattern : Py.Pattern => pattern v) excluded_hosts); simpl;
      [reflexivity|].
    destruct (decide (h ∈ List.filter _ rest)) as [Hin|Hnin].
    + rewrite decide_True by (right; exact Hin). reflexivity.
    + destruct (decide (v = h)) as [->|Hne].
      * rewrite lookup_insert_eq, decide_True by left. reflexivity.
      * rewrite lookup_insert_ne by exact Hne. rewrite decide_False; [reflexivity|].
        intros Hin. apply elem_of_cons in Hin as [->|Hin]; contradiction.
Qed.

Lemma check_traefik_keeps_route_hosts (router : Route) :
  (if check_traefik_keeps router
   then List.filter (host_allowed included_hosts excluded_hosts)
          (Py.findall_host (getitem router "rule"))
   else [])
  = route_hosts included_hosts excluded_hosts router.
Proof.
  unfold check_traefik_keeps, route_hosts. simpl.
  destruct (bool_decide (is_Some (router !! "status"))); simpl; [|reflexivity].
  destruct (bool_decide (is_Some (router !! "name"))); simpl; [|reflexivity].
  destruct (bool_decide (is_Some (router !! "rule"))); simpl; [|reflexivity].
  destruct (String.eqb (getitem router "status") "enabled"); simpl; [|reflexivity].
  destruct (Py.str_in "Host" (getitem router "rule")) eqn:Hhost; simpl; [reflexivity|].
  rewrite (findall_host_lacking _ Hhost). reflexivity.
Qed.

Lemma check_traefik_routers_lookup routers :
  forall (mappings : gmap string Z) h,
    foldl (check_traefik_router included_hosts excluded_hosts) mappings routers !! h
    = if decide (h ∈ flat_map (route_hosts included_hosts excluded_hosts) routers)
      then Some 2 else mappings !! h.
Proof.
  induction routers as [|router rest IH]; intros mappings h; simpl.
  - destruct (decide (h ∈ [])) as [Hin|_]; [inversion Hin|reflexivity].
  - rewrite IH. rewrite <- (check_traefik_keeps_route_hosts router).
    unfold check_traefik_router.
    destruct (decide (h ∈ flat_map (route_hosts included_hosts excluded_hosts) rest))
      as [Hrest|Hrest].
    + rewrite decide_True by (apply elem_of_app; right; exact Hrest). reflexivity.
    + destruct (check_traefik_keeps router).
      * rewrite check_traefik_hosts_lookup.
        destruct (decide (h ∈ List.filter _ (Py.findall_host _))) as [Hhere|Hhere].
        -- rewrite decide_True by (apply elem_of_app; left; exact Hhere). reflexivity.
        -- rewrite decide_False; [reflexivity|].
           intros Hin. apply elem_of_app in Hin as [Hin|Hin]; contradiction.
      * simpl. rewrite decide_False by exact Hrest. reflexivity.
Qed.

(** X23.  The deprecated [check_traefik] and [_validate] find the same
    hostnames: a hostname is a key of the dictionary that [check_traefik]
    builds from an answer exactly when [_validate] returns it for that
    answer, every key is mapped to rank 2, and without a usable answer the
    dictionary is empty. *)
Theorem check_traefik_agrees_with_validate {W} (routers : list Route) (w : W) :
  exists data,
    outcome (_validate included_hosts excluded_hosts routers w) = Ret (data, TRAEFIK)
    /\ (forall h,
           check_traefik included_hosts excluded_hosts (Some routers) !! h = Some 2
           <-> In h data)
    /\ (forall h rank,
           check_traefik included_hosts excluded_hosts (Some routers) !! h = Some rank ->
           rank = 2)
    /\ check_traefik included_hosts excluded_hosts None = ∅.
Proof.
  exists (flat_map (route_hosts included_hosts excluded_hosts) routers).
  split.
  { unfold _validate. rewrite bind_run.
    destruct (validate_routes_run included_hosts excluded_hosts routers [] w) as (-> & -> & _).
    reflexivity. }
  assert (Hlook := check_traefik_routers_lookup routers ∅).
  unfold check_traefik. split; [|split; [|reflexivity]].
  - intros h. rewrite Hlook, lookup_empty, <- list_elem_of_In.
    destruct (decide (h ∈ flat_map (route_hosts included_hosts excluded_hosts) routers));
      [tauto|]. split; [discriminate|contradiction].
  - intros h rank. rewrite Hlook, lookup_empty.
    destruct (decide _); [intros [= <-]; reflexivity|discriminate].
Qed.
End LegacyTraefik.
